(** * The data pipeline of the AlexNet notebook

    A shallow embedding of the utility cells of [alexnet.ipynb]
    ([one_hot], [get_wnids], [preprocess], [read_image], [read_batch])
    together with the small part of NumPy, Pillow, [os] and [random]
    that these cells call.  Library calls are modelled by their
    documented behaviour; the notebook's own functions are transcribed
    statement by statement. *)

From Stdlib Require Import ZArith List String Ascii Bool Lia QArith.
From Stdlib Require Import Init.Byte.
From Stdlib Require Strings.Byte.
Import ListNotations.

Local Open Scope string_scope.
Local Open Scope list_scope.
Local Open Scope nat_scope.

(** ** Python exceptions and fallible pure computations *)

Inductive exn : Type :=
| IndexError
| ValueError
| FileNotFoundError
| NotADirectoryError
| IsADirectoryError
| PermissionError
| OSError.

Inductive result (A : Type) : Type :=
| Ok (a : A)
| Err (e : exn).

Arguments Ok {A} a.
Arguments Err {A} e.

Definition result_bind {A B} (r : result A) (k : A -> result B) : result B :=
  match r with
  | Ok a => k a
  | Err e => Err e
  end.

(** Positional indexing as Python does it: a negative index counts from
    the end, anything outside [-n, n) raises [IndexError]. *)
Definition norm_index (index : Z) (n : nat) : result nat :=
  let i := if (index <? 0)%Z then (index + Z.of_nat n)%Z else index in
  if ((0 <=? i) && (i <? Z.of_nat n))%Z then Ok (Z.to_nat i) else Err IndexError.

(** [seq[index]] on a Python list. *)
Definition list_getitem {A} (l : list A) (index : Z) : result A :=
  result_bind (norm_index index (List.length l))
    (fun i => match nth_error l i with
              | Some x => Ok x
              | None => Err IndexError
              end).

(** ** NumPy arrays: a shape and a row-major buffer *)

(** [float64] entries.  The only values the notebook stores are 0.0 and
    1.0, which are exact. *)
Definition float := Q.

Record ndarray (A : Type) : Type := mk_ndarray {
  shape : list nat;
  data : list A
}.

Arguments mk_ndarray {A} shape data.
Arguments shape {A} n.
Arguments data {A} n.

Fixpoint mapi_from {A B} (f : nat -> A -> B) (k : nat) (l : list A) : list B :=
  match l with
  | [] => []
  | x :: t => f k x :: mapi_from f (S k) t
  end.

Definition mapi {A B} (f : nat -> A -> B) (l : list A) : list B := mapi_from f 0 l.

(** Equality of shapes, as the tuple comparison [a.shape == (64, 64, 3)]. *)
Fixpoint shape_eqb (s t : list nat) : bool :=
  match s, t with
  | [], [] => true
  | a :: s', b :: t' => (a =? b) && shape_eqb s' t'
  | _, _ => false
  end.

(** 32-bit two's-complement wrap-around of [np.int32] arithmetic. *)
Definition wrap32 (z : Z) : Z := ((z + 2147483648) mod 4294967296 - 2147483648)%Z.

(** [a[y, x, c]] for non-negative indices into a three-axis array. *)
Definition getitem3 {A} (a : ndarray A) (y x c : nat) : option A :=
  match shape a with
  | [h; w; ch] =>
      if (y <? h) && (x <? w) && (c <? ch)
      then nth_error (data a) ((y * w + x) * ch + c)
      else None
  | _ => None
  end.

Module np.

Definition prod_shape (s : list nat) : nat := fold_right Nat.mul 1 s.

(** [np.zeros(n)]: a float64 vector of [n] zeros. *)
Definition zeros (n : nat) : ndarray float :=
  mk_ndarray [n] (repeat 0%Q n).

(** [a[index] = v]: the slab of the first axis selected by [index] is
    filled with [v]. *)
Definition setitem {A} (a : ndarray A) (index : Z) (v : A) : result (ndarray A) :=
  match shape a with
  | [] => Err IndexError
  | n :: rest =>
      result_bind (norm_index index n) (fun i =>
        let stride := prod_shape rest in
        Ok (mk_ndarray (shape a)
              (firstn (i * stride) (data a) ++ repeat v stride
                 ++ skipn ((i + 1) * stride) (data a))))
  end.

(** [a[:, :, i] -= m] on a three-axis [int32] array. *)
Definition isub_channel (a : ndarray Z) (i : Z) (m : Z) : result (ndarray Z) :=
  match shape a with
  | [_; _; c] =>
      result_bind (norm_index i c) (fun k =>
        Ok (mk_ndarray (shape a)
              (mapi (fun j v => if (j mod c =? k)%nat then wrap32 (v - m) else v)
                    (data a))))
  | _ => Err IndexError
  end.

(** [np.atleast_2d]. *)
Definition atleast_2d {A} (a : ndarray A) : ndarray A :=
  match shape a with
  | [] => mk_ndarray [1; 1] (data a)
  | [n] => mk_ndarray [1; n] (data a)
  | _ => a
  end.

(** [np.vstack(tup)]: concatenation along the first axis of the
    [atleast_2d] views; [ValueError] on an empty sequence and on
    arrays whose remaining axes disagree. *)
Definition vstack {A} (tup : list (ndarray A)) : result (ndarray A) :=
  match map atleast_2d tup with
  | [] => Err ValueError
  | a :: rest =>
      if forallb (fun b => shape_eqb (tl (shape a)) (tl (shape b))) rest
      then Ok (mk_ndarray
                 (fold_right (fun b acc => hd 0 (shape b) + acc) 0 (a :: rest)
                    :: tl (shape a))
                 (List.concat (map data (a :: rest))))
      else Err ValueError
  end.

End np.

(** ** Pillow images

    An image has a size and one value per pixel; the band layout is the
    image's mode.  The modes covered are the ones of the data set's JPEG
    files (["L"] and ["RGB"]) and ["RGBA"]. *)

Definition rgb : Type := byte * byte * byte.

Record raster (P : Type) : Type := mk_raster {
  width : nat;
  height : nat;
  getpixel : nat -> nat -> P          (* [getpixel x y] *)
}.

Arguments mk_raster {P} width height getpixel.
Arguments width {P} r.
Arguments height {P} r.
Arguments getpixel {P} r x y.

Inductive image : Type :=
| ModeL (im : raster byte)
| ModeRGB (im : raster rgb)
| ModeRGBA (im : raster (byte * byte * byte * byte)).

(** The interpolation kernel behind [Image.resize]: the value of pixel
    [(x, y)] of the [w] by [h] result. *)
Class Resampler : Type := {
  resample : raster rgb -> nat -> nat -> nat -> nat -> rgb
}.

(** Nearest neighbour: the source pixel under the centre of the
    destination pixel.  [Image.resize] is called without a filter, and
    which one that means depends on the release of the imaging library
    (nearest neighbour in the older ones, bicubic later); the statements
    below hold for every [Resampler], and this instance serves the
    example runs, on images of one colour. *)
Definition nearest (im : raster rgb) (w h x y : nat) : rgb :=
  getpixel im (((2 * x + 1) * width im) / (2 * w))
              (((2 * y + 1) * height im) / (2 * h)).

#[export] Instance nearest_resampler : Resampler := {| resample := nearest |}.

Definition band (p : rgb) (c : nat) : byte :=
  match p with
  | (r, g, b) => match c with 0 => r | 1 => g | _ => b end
  end.

Definition byte_value (b : byte) : Z := Z.of_N (Byte.to_N b).


(** ** The file system

    A directory tree.  Entries are kept in the order in which the
    directory lists them; a file is either decodable as an image or not. *)

#[warnings="-register-all"] Inductive node : Type :=
| File (content : option image)
| Dir (readable : bool) (entries : list (string * node)).

Fixpoint assoc {A} (k : string) (l : list (string * A)) : option A :=
  match l with
  | [] => None
  | (k', v) :: t => if String.eqb k k' then Some v else assoc k t
  end.

Fixpoint split_slash (p : string) : list string :=
  match p with
  | EmptyString => [EmptyString]
  | String c rest =>
      if Ascii.eqb c "/" then EmptyString :: split_slash rest
      else match split_slash rest with
           | cur :: more => String c cur :: more
           | [] => [String c EmptyString]
           end
  end.

Definition components (p : string) : list string :=
  filter (fun s => negb (String.eqb s EmptyString) && negb (String.eqb s ".")) (split_slash p).

Fixpoint walk (comps : list string) (n : node) : option node :=
  match comps with
  | [] => Some n
  | c :: rest =>
      match n with
      | Dir _ entries =>
          match assoc c entries with
          | Some child => walk rest child
          | None => None
          end
      | File _ => None
      end
  end.

(** Path lookup from the working directory, which is the root of the
    tree.  Every component is looked up as an entry name; a component
    [..] is not followed upwards and a NUL character gets no treatment of
    its own, so the model is one of paths that hold neither. *)
Definition resolve (root : node) (p : string) : option node :=
  if String.eqb p EmptyString then None else walk (components p) root.

(** The names of the entries that are directories, in listing order. *)
Definition is_dir (n : node) : bool :=
  match n with
  | Dir _ _ => true
  | File _ => false
  end.

Definition subdirectories (entries : list (string * node)) : list string :=
  map fst (filter (fun e => is_dir (snd e)) entries).

Definition startswith_sep (s : string) : bool :=
  match s with
  | String c _ => Ascii.eqb c "/"
  | EmptyString => false
  end.

Fixpoint endswith_sep (s : string) : bool :=
  match s with
  | EmptyString => false
  | String c EmptyString => Ascii.eqb c "/"
  | String _ rest => endswith_sep rest
  end.

(** The file-system calls the program makes, in the order it makes them. *)
Inductive event : Type :=
| EvListdir (p : string)
| EvExists (p : string)
| EvOpen (p : string).

(** ** The random generator

    [random]'s functions all draw through [_randbelow(n)], which returns
    an integer in [0, n) and advances the generator; [rng_seed a] is the state
    that [random.seed(a)] installs. *)
Class RandomSource : Type := {
  rng_state : Type;
  rng_seed : Z -> rng_state;
  rng_randbelow : rng_state -> nat -> nat * rng_state;
  rng_randbelow_lt : forall s n, 0 < n -> fst (rng_randbelow s n) < n
}.

(** ** Running programs

    A program runs in a world: the directory tree it reads, the state of
    the generator and the log of file-system calls made so far (newest
    first).  It returns, raises, or is cut off inside a [while] loop whose
    iteration budget is spent. *)

Section Runtime.

Context {RS : RandomSource}.

Record world : Type := mk_world {
  fs : node;
  gen : rng_state;
  log : list event
}.

Inductive outcome (A : Type) : Type :=
| Ret (a : A) (w : world)
| Raise (e : exn) (w : world)
| Timeout (w : world).

Definition M (A : Type) : Type := world -> outcome A.

Definition ret {A} (a : A) : M A := fun w => Ret A a w.

Definition bind {A B} (m : M A) (k : A -> M B) : M B :=
  fun w =>
    match m w with
    | Ret _ a w' => k a w'
    | Raise _ e w' => Raise B e w'
    | Timeout _ w' => Timeout B w'
    end.

Definition raise {A} (e : exn) : M A := fun w => Raise A e w.

Definition timeout {A} : M A := fun w => Timeout A w.

Definition lift {A} (r : result A) : M A :=
  match r with
  | Ok a => ret a
  | Err e => raise e
  end.

Definition emit (e : event) : M unit :=
  fun w => Ret unit tt (mk_world (fs w) (gen w) (e :: log w)).

Definition tree : M node := fun w => Ret node (fs w) w.

(** [for x in l: acc = body(x, acc)]. *)
Fixpoint for_each {X S} (l : list X) (body : X -> S -> M S) (acc : S) : M S :=
  match l with
  | [] => ret acc
  | x :: t => bind (body x acc) (for_each t body)
  end.

End Runtime.

Arguments Ret {RS A} a w.
Arguments Raise {RS A} e w.
Arguments Timeout {RS A} w.

Notation "x <- c ;; k" := (bind c (fun x => k))
  (at level 61, c at next level, right associativity).

(** [range(n)]. *)
Definition range (n : Z) : list Z := map Z.of_nat (seq 0 (Z.to_nat n)).

Fixpoint for_each_result {X S} (l : list X) (body : X -> S -> result S) (acc : S) : result S :=
  match l with
  | [] => Ok acc
  | x :: t => result_bind (body x acc) (for_each_result t body)
  end.

Module os.

Module path.

(** [posixpath.join] of two components. *)
Definition join (a b : string) : string :=
  if startswith_sep b then b
  else if String.eqb a EmptyString || endswith_sep a then (a ++ b)%string
  else (a ++ "/" ++ b)%string.

(** [os.path.exists]; the trailing underscore keeps clear of the
    reserved word.  On the paths of the model it answers and never
    raises. *)
Definition exists_ {RS : RandomSource} (p : string) : M bool :=
  _ <- emit (EvExists p) ;;
  root <- tree ;;
  ret (match resolve root p with Some _ => true | None => false end).

End path.

(** [os.listdir]: the names of the entries, in directory order. *)
Definition listdir {RS : RandomSource} (p : string) : M (list string) :=
  _ <- emit (EvListdir p) ;;
  root <- tree ;;
  match resolve root p with
  | Some (Dir true entries) => ret (map fst entries)
  | Some (Dir false _) => raise PermissionError
  | Some (File _) => raise NotADirectoryError
  | None => raise FileNotFoundError
  end.

End os.

Module random.

Definition randbelow {RS : RandomSource} (n : nat) : M nat :=
  fun w =>
    let (k, s) := rng_randbelow (gen w) n in
    Ret k (mk_world (fs w) s (log w)).

(** [random.seed(a)]. *)
Definition seed {RS : RandomSource} (a : Z) : M unit :=
  fun w => Ret tt (mk_world (fs w) (rng_seed a) (log w)).

(** [random.randint(a, b)] is [randrange(a, b + 1)]. *)
Definition randint {RS : RandomSource} (a b : Z) : M Z :=
  let width := (b + 1 - a)%Z in
  if (0 <? width)%Z
  then k <- randbelow (Z.to_nat width) ;; ret (a + Z.of_nat k)%Z
  else raise ValueError.

(** [random.choice(seq)]. *)
Definition choice {RS : RandomSource} {A} (seq : list A) : M A :=
  match seq with
  | [] => raise IndexError
  | _ :: _ =>
      i <- randbelow (List.length seq) ;;
      lift (list_getitem seq (Z.of_nat i))
  end.

End random.

Module Image.

(** [im.convert('RGB')]: grey levels are replicated, alpha is dropped. *)
Definition convert_RGB (im : image) : raster rgb :=
  match im with
  | ModeL g => mk_raster (width g) (height g)
                 (fun x y => let v := getpixel g x y in (v, v, v))
  | ModeRGB c => c
  | ModeRGBA c => mk_raster (width c) (height c)
                    (fun x y => match getpixel c x y with (r, g, b, _) => (r, g, b) end)
  end.

(** [im.resize((w, h))]. *)
Definition resize `{Resampler} (im : raster rgb) (size : nat * nat) : raster rgb :=
  let (w, h) := size in
  mk_raster w h (resample im w h).

(** [Image.open(path)], with the file decoded.  A file that holds no
    image raises [OSError], as the library does for a file it cannot
    identify; other ways in which decoding may fail are not told apart. *)
Definition open {RS : RandomSource} (p : string) : M image :=
  _ <- emit (EvOpen p) ;;
  root <- tree ;;
  match resolve root p with
  | Some (File (Some im)) => ret im
  | Some (File None) => raise OSError
  | Some (Dir _ _) => raise IsADirectoryError
  | None => raise FileNotFoundError
  end.

End Image.

(** [np.array(im)] and [np.array(im, np.int32)] of an RGB image: shape
    (height, width, 3), rows first, the three bands of a pixel adjacent. *)
Definition array_of_image (im : raster rgb) : ndarray Z :=
  let w := width im in
  let h := height im in
  mk_ndarray [h; w; 3]
    (map (fun i => byte_value (band (getpixel im ((i / 3) mod w) (i / (3 * w))) (i mod 3)))
         (seq 0 (h * w * 3))).

(** ** The notebook's utility cells *)

(** Cell 10: [one_hot(index)]. *)
Definition one_hot (index : Z) : result (ndarray float) :=
  let vec := np.zeros 200 in
  np.setitem vec index 1%Q.

(** The channel means of cell 14, [np.array([142, 143, 145], np.int32)]. *)
Definition means : list Z := [142; 143; 145]%Z.

Section Notebook.

Context {RS : RandomSource} {RK : Resampler}.

(** Cell 12: [get_wnids(folder_path)]. *)
Definition get_wnids (folder_path : string) : M (list string) :=
  wnids <- os.listdir folder_path ;;
  ret wnids.

(** Cell 14: [preprocess(image)], on the RGB image that [read_image]
    hands over. *)
Definition preprocess (image : raster rgb) : result (ndarray Z) :=
  let image := array_of_image (Image.resize image (224, 224)) in
  for_each_result (range 3)
    (fun i image =>
       result_bind (list_getitem means i) (fun m => np.isub_channel image i m))
    image.

(** Cell 16: [read_image(images_folder)].  [fuel] bounds the iterations
    of the [while flag is False] loop. *)
Fixpoint read_image (fuel : nat) (images_folder : string) : M (ndarray Z) :=
  match fuel with
  | 0 => timeout
  | S fuel' =>
      names <- os.listdir images_folder ;;
      name <- random.choice names ;;
      let image_path := os.path.join images_folder name in
      im <- Image.open image_path ;;
      let img := Image.convert_RGB im in
      if shape_eqb (shape (array_of_image img)) [64; 64; 3]
      then lift (preprocess img)
      else read_image fuel' images_folder
  end.

(** The [while flag is False] loop of cell 18, which yields [folder]. *)
Fixpoint find_folder (fuel : nat) (images_source : string)
    (wnid_labels : list string) (class_index : Z) : M string :=
  match fuel with
  | 0 => timeout
  | S fuel' =>
      wnid <- lift (list_getitem wnid_labels class_index) ;;
      let folder := os.path.join wnid "images" in
      found <- os.path.exists_ (os.path.join images_source folder) ;;
      if found then ret folder
      else find_folder fuel' images_source wnid_labels class_index
  end.

Definition batch : Type := (list (ndarray Z) * list (ndarray float))%type.

(** One pass through the body of the [for i in range(batch_size)] loop. *)
Definition read_batch_step (fuel : nat) (images_source : string)
    (wnid_labels : list string) (acc : batch) : M batch :=
  let (batch_images, batch_labels) := acc in
  class_index <- random.randint 0 199 ;;
  folder <- find_folder fuel images_source wnid_labels class_index ;;
  img <- read_image fuel (os.path.join images_source folder) ;;
  lbl <- lift (one_hot class_index) ;;
  ret (batch_images ++ [img], batch_labels ++ [lbl]).

(** Cell 18: [read_batch(batch_size, images_source, wnid_labels)]. *)
Definition read_batch (fuel : nat) (batch_size : Z) (images_source : string)
    (wnid_labels : list string) : M batch :=
  acc <- for_each (range batch_size)
           (fun _ => read_batch_step fuel images_source wnid_labels) ([], []) ;;
  let (batch_images, batch_labels) := acc in
  _ <- lift (np.vstack batch_images) ;;
  _ <- lift (np.vstack batch_labels) ;;
  ret (batch_images, batch_labels).

(** [random.seed(a)] followed by a call of [read_batch]. *)
Definition seeded_read_batch (a : Z) (fuel : nat) (batch_size : Z)
    (images_source : string) (wnid_labels : list string) : M batch :=
  _ <- random.seed a ;;
  read_batch fuel batch_size images_source wnid_labels.

End Notebook.

(** ** A scripted generator

    A generator that replays a list of raw draws, reduced modulo the
    bound, and answers 0 once the list is used up.  Seeding installs a
    one-entry script. *)

Definition script_randbelow (s : list nat) (n : nat) : nat * list nat :=
  match s with
  | [] => (0, [])
  | r :: t => (r mod n, t)
  end.

Definition scripted : RandomSource.
Proof.
  refine {| rng_state := list nat;
            rng_seed := fun a => [Z.abs_nat a];
            rng_randbelow := script_randbelow |}.
  intros s n Hn. destruct s as [|r t]; simpl.
  - exact Hn.
  - apply Nat.mod_upper_bound. lia.
Defined.

(** ** Example directory trees *)

Definition grey64 : image :=
  ModeRGB (mk_raster 64 64 (fun _ _ => (x80, x80, x80))).

Definition thumb32 : image :=
  ModeRGB (mk_raster 32 32 (fun _ _ => (x00, x00, x00))).

Definition class_folder (files : list (string * node)) : node :=
  Dir true [("images", Dir true files)].

(** Three classes with one 64 by 64 RGB image each. *)
Definition three_classes : node :=
  Dir true
    [("root", Dir true
        [("a", class_folder [("a_0.JPEG", File (Some grey64))]);
         ("b", class_folder [("b_0.JPEG", File (Some grey64))]);
         ("c", class_folder [("c_0.JPEG", File (Some grey64))])])].

(** A damaged data set: class [a] has no [images] folder, the one of [b]
    is empty, [c] holds a thumbnail before a full-size image, [d] holds
    a thumbnail only, and a text file lies next to the class folders. *)
Definition damaged : node :=
  Dir true
    [("root", Dir true
        [("a", Dir true []);
         ("b", class_folder []);
         ("c", class_folder [("c_0.JPEG", File (Some thumb32));
                             ("c_1.JPEG", File (Some grey64))]);
         ("d", class_folder [("d_0.JPEG", File (Some thumb32))]);
         ("words.txt", File None)])].

(** One class whose only image is a greyscale file of 64 by 64 pixels. *)
Definition grey64_L : image := ModeL (mk_raster 64 64 (fun _ _ => x80)).

Definition greyscale_class : node :=
  Dir true [("root", Dir true [("g", class_folder [("g_0.JPEG", File (Some grey64_L))])])].

(** A fresh run: the scripted generator loaded with [script], nothing
    logged yet. *)
Definition boot (tree : node) (script : list nat) : @world scripted :=
  @mk_world scripted tree script [].

(** ** Closed forms used in the statements *)

(** The vector with a single 1.0 at position [k] among 200 entries. *)
Definition unit_vector (k : nat) : ndarray float :=
  mk_ndarray [200] (repeat 0%Q k ++ [1%Q] ++ repeat 0%Q (199 - k)).

(** The three channel passes of [preprocess], written out. *)
Definition sub_mean (k : nat) (m : Z) (j : nat) (v : Z) : Z :=
  if j mod 3 =? k then wrap32 (v - m) else v.

Definition preprocessed `{Resampler} (image : raster rgb) : ndarray Z :=
  mk_ndarray [224; 224; 3]
    (mapi (sub_mean 2 145)
       (mapi (sub_mean 1 143)
          (mapi (sub_mean 0 142)
             (data (array_of_image (Image.resize image (224, 224))))))).

(** A one-pixel black image. *)
Definition black_pixel : raster rgb := mk_raster 1 1 (fun _ _ => (x00, x00, x00)).

(** The outcome of the next [_randbelow(n)] in a world, the world after
    it, and the world after one more logged file-system call. *)
Definition drawn {RS : RandomSource} (w : world) (n : nat) : nat :=
  fst (rng_randbelow (gen w) n).

Definition after_draw {RS : RandomSource} (w : world) (n : nat) : world :=
  mk_world (fs w) (snd (rng_randbelow (gen w) n)) (log w).

Definition logged {RS : RandomSource} (e : event) (w : world) : world :=
  mk_world (fs w) (gen w) (e :: log w).

(** What [read_image] finds when it opens entry [name] of [folder]: a
    file that decodes, and one whose RGB array has shape (64, 64, 3). *)
Definition loadable (root : node) (folder name : string) : bool :=
  match resolve root (os.path.join folder name) with
  | Some (File (Some _)) => true
  | _ => false
  end.

Definition conforming (root : node) (folder name : string) : bool :=
  match resolve root (os.path.join folder name) with
  | Some (File (Some im)) =>
      shape_eqb (shape (array_of_image (Image.convert_RGB im))) [64; 64; 3]
  | _ => false
  end.

(** [np.array(im).shape] of a decoded file as it is stored, before any
    conversion: no band axis for mode L, three bands for RGB, four for
    RGBA. *)
Definition raw_shape (im : image) : list nat :=
  match im with
  | ModeL g => [height g; width g]
  | ModeRGB c => [height c; width c; 3]
  | ModeRGBA c => [height c; width c; 4]
  end.

(** Entry [name] of [folder] is a file stored as a three-band RGB image;
    and its raw shape is (64, 64, 3). *)
Definition three_band (root : node) (folder name : string) : bool :=
  match resolve root (os.path.join folder name) with
  | Some (File (Some (ModeRGB _))) => true
  | _ => false
  end.

Definition raw_conforming (root : node) (folder name : string) : bool :=
  match resolve root (os.path.join folder name) with
  | Some (File (Some im)) => shape_eqb (raw_shape im) [64; 64; 3]
  | _ => false
  end.

(** [im.size] of a decoded file: (width, height), whatever the mode. *)
Definition image_size (im : image) : nat * nat :=
  match im with
  | ModeL g => (width g, height g)
  | ModeRGB c => (width c, height c)
  | ModeRGBA c => (width c, height c)
  end.

(** A class of the data set as the sampler needs it: its [images] folder
    is a readable directory with at least one entry, and every entry is
    an image whose RGB array has shape (64, 64, 3). *)
Definition well_formed_class (root : node) (images_source wnid : string) : bool :=
  let folder := os.path.join images_source (os.path.join wnid "images") in
  match resolve root folder with
  | Some (Dir true entries) =>
      negb (List.length entries =? 0) && forallb (conforming root folder) (map fst entries)
  | _ => false
  end.

(** The generator after [j] draws below [n], the outcome of the next
    one, and the name that [random.choice] then picks. *)
Fixpoint gen_after {RS : RandomSource} (s : rng_state) (n j : nat) : rng_state :=
  match j with
  | 0 => s
  | S j' => gen_after (snd (rng_randbelow s n)) n j'
  end.

Definition nth_draw {RS : RandomSource} (s : rng_state) (n j : nat) : nat :=
  fst (rng_randbelow (gen_after s n j) n).

Definition attempt_name {RS : RandomSource} (s : rng_state) (names : list string)
    (j : nat) : string :=
  nth (nth_draw s (List.length names) j) names EmptyString.

(** The world after one pass through the loop of [read_image]. *)
Definition after_attempt {RS : RandomSource} (w : world) (folder : string)
    (names : list string) : world :=
  mk_world (fs w) (snd (rng_randbelow (gen w) (List.length names)))
    (EvOpen (os.path.join folder (attempt_name (gen w) names 0))
       :: EvListdir folder :: log w).

(** ** Decoding labels

    [tf.argmax(y, 1)] of cell 61, on one row: the position of the first
    largest entry; the reduction of an empty row is an error. *)

Fixpoint argmax_from (best : nat) (best_value : float) (i : nat) (row : list float) : nat :=
  match row with
  | [] => best
  | v :: t =>
      if Qle_bool v best_value
      then argmax_from best best_value (S i) t
      else argmax_from i v (S i) t
  end.

Definition argmax (row : list float) : option nat :=
  match row with
  | [] => None
  | v :: t => Some (argmax_from 0 v 1 t)
  end.

(** ** What a batch is made of

    [img] and [lbl] form a sample of class [k]: [img] is the preprocessed
    form of a 64 by 64 image listed in the [images] folder of the [k]-th
    class identifier, and [lbl] is [one_hot(k)]. *)
Definition sample_of {RK : Resampler} (root : node) (images_source : string)
    (wnid_labels : list string) (img : ndarray Z) (lbl : ndarray float) : Prop :=
  exists (k : nat) (wnid name : string) (entries : list (string * node)) (im : image),
    nth_error wnid_labels k = Some wnid /\
    resolve root (os.path.join images_source (os.path.join wnid "images"))
      = Some (Dir true entries) /\
    In name (map fst entries) /\
    resolve root
      (os.path.join (os.path.join images_source (os.path.join wnid "images")) name)
      = Some (File (Some im)) /\
    shape (array_of_image (Image.convert_RGB im)) = [64; 64; 3] /\
    preprocess (Image.convert_RGB im) = Ok img /\
    one_hot (Z.of_nat k) = Ok lbl.

(** The file-system calls of the first [j] passes of [read_image], newest
    first. *)
Fixpoint attempts_log {RS : RandomSource} (s : rng_state) (folder : string)
    (names : list string) (j : nat) : list event :=
  match j with
  | 0 => []
  | S j' =>
      attempts_log (snd (rng_randbelow s (List.length names))) folder names j'
        ++ [EvOpen (os.path.join folder (attempt_name s names 0)); EvListdir folder]
  end.


(** ** Building the network: static shapes

    Cells 30 to 61 build a TensorFlow graph; no number is computed until
    a session runs it.  What does run when the cells are executed is the
    shape inference of every operation, which raises as soon as two
    shapes do not fit.  A tensor is therefore represented by its static
    shape, a list of dimensions of which some may be unknown ([None] in
    Python, [None] here). *)

Inductive graph_error : Type :=
| GraphValueError       (* raised by shape inference *)
| GraphTypeError        (* arithmetic on an unknown dimension *)
| GraphIndexError.      (* [dim[k]] beyond the rank *)

Inductive built (A : Type) : Type :=
| Built (a : A)
| Failed (e : graph_error).

Arguments Built {A} a.
Arguments Failed {A} e.

Definition built_bind {A B} (b : built A) (k : A -> built B) : built B :=
  match b with
  | Built a => k a
  | Failed e => Failed e
  end.

Notation "x <~ c ;; k" := (built_bind c (fun x => k))
  (at level 61, c at next level, right associativity).

Definition dimension : Type := option nat.

Definition tensor_shape : Type := list dimension.

Inductive padding : Type := SAME | VALID.

Module tf.

(** [Dimension.is_compatible_with] and [TensorShape.is_compatible_with]
    for shapes of known rank. *)
Definition dimension_compatible (a b : dimension) : bool :=
  match a, b with
  | Some m, Some n => m =? n
  | _, _ => true
  end.

Fixpoint is_compatible_with (s t : tensor_shape) : bool :=
  match s, t with
  | [], [] => true
  | a :: s', b :: t' => dimension_compatible a b && is_compatible_with s' t'
  | _, _ => false
  end.

(** Merging two dimensions that must agree. *)
Definition merge_dimension (a b : dimension) : built dimension :=
  match a, b with
  | Some m, Some n => if m =? n then Built (Some m) else Failed GraphValueError
  | Some m, None => Built (Some m)
  | None, b' => Built b'
  end.

(** Broadcasting of two dimensions, and of two shapes aligned at their
    last dimension (given last dimension first). *)
Definition broadcast_dimension (a b : dimension) : built dimension :=
  match a, b with
  | Some m, Some n =>
      if m =? 1 then Built (Some n)
      else if n =? 1 then Built (Some m)
      else if m =? n then Built (Some m)
      else Failed GraphValueError
  | Some m, None => if 1 <? m then Built (Some m) else Built None
  | None, Some n => if 1 <? n then Built (Some n) else Built None
  | None, None => Built None
  end.

Fixpoint broadcast_reversed (s t : tensor_shape) : built tensor_shape :=
  match s, t with
  | [], _ => Built t
  | _, [] => Built s
  | a :: s', b :: t' =>
      d <~ broadcast_dimension a b ;;
      r <~ broadcast_reversed s' t' ;;
      Built (d :: r)
  end.

(** [tf.add(a, b)]. *)
Definition add (a b : tensor_shape) : built tensor_shape :=
  r <~ broadcast_reversed (rev a) (rev b) ;;
  Built (rev r).

(** The extent of one spatial dimension after a window of size [window]
    has been moved over it in steps of [stride]. *)
Definition windowed_output (input window : dimension) (stride : nat) (p : padding)
    : built dimension :=
  if stride =? 0 then Failed GraphValueError
  else
    match input, p with
    | None, _ => Built None
    | Some n, SAME => Built (Some ((n + (stride - 1)) / stride))
    | Some n, VALID =>
        match window with
        | None => Built None
        | Some k =>
            if n <? k then Failed GraphValueError
            else Built (Some ((n - k + stride) / stride))
        end
    end.

(** [tf.matmul(a, b)]. *)
Definition matmul (a b : tensor_shape) : built tensor_shape :=
  match a, b with
  | [n; k], [k'; m] => _ <~ merge_dimension k k' ;; Built [n; m]
  | _, _ => Failed GraphValueError
  end.

(** The number of elements of a shape, when every dimension is known. *)
Fixpoint num_elements (s : tensor_shape) : option nat :=
  match s with
  | [] => Some 1
  | Some n :: s' => option_map (Nat.mul n) (num_elements s')
  | None :: _ => None
  end.

(** [tf.reshape(t, [-1, d])]. *)
Definition reshape_rows (t : tensor_shape) (d : nat) : built tensor_shape :=
  match num_elements t with
  | None => Built [None; Some d]
  | Some total =>
      if d =? 0 then (if total =? 0 then Built [None; Some d] else Failed GraphValueError)
      else if total mod d =? 0 then Built [Some (total / d); Some d]
      else Failed GraphValueError
  end.

(** [tf.argmax(t, 1)]. *)
Definition argmax_axis1 (t : tensor_shape) : built tensor_shape :=
  match t with
  | a :: _ :: rest => Built (a :: rest)
  | _ => Failed GraphValueError
  end.

(** [tf.equal(a, b)] and [tf.reduce_mean(t)]. *)
Definition equal (a b : tensor_shape) : built tensor_shape := add a b.

Definition reduce_mean (t : tensor_shape) : tensor_shape := [].

Module nn.

(** The depths in [tf.nn.conv2d]: the depth of the input must be a
    multiple of the input depth of the filter; the quotient is the number
    of groups, which must divide the output depth of the filter.
    Releases without grouped convolutions accept equal depths only; the
    two rules agree on equal depths and on an input depth that is no
    multiple of the filter's. *)
Definition conv_depth (c cin cout : dimension) : built unit :=
  match c, cin with
  | Some m, Some k =>
      if k =? 0 then Failed GraphValueError
      else if negb (m mod k =? 0) then Failed GraphValueError
      else if m =? k then Built tt
      else
        match cout with
        | Some o =>
            if m / k =? 0 then Failed GraphValueError
            else if o mod (m / k) =? 0 then Built tt
            else Failed GraphValueError
        | None => Built tt
        end
  | _, _ => Built tt
  end.

(** [tf.nn.conv2d(x, w, strides, padding)]. *)
Definition conv2d (x w : tensor_shape) (strides : list nat) (p : padding)
    : built tensor_shape :=
  match x, w, strides with
  | [n; h; wd; c], [kh; kw; cin; cout], [1; sh; sw; 1] =>
      _ <~ conv_depth c cin cout ;;
      oh <~ windowed_output h kh sh p ;;
      ow <~ windowed_output wd kw sw p ;;
      Built [n; oh; ow; cout]
  | _, _, _ => Failed GraphValueError
  end.

(** [tf.nn.max_pool(x, ksize, strides, padding)]. *)
Definition max_pool (x : tensor_shape) (ksize strides : list nat) (p : padding)
    : built tensor_shape :=
  match x, ksize, strides with
  | [n; h; wd; c], [1; kh; kw; 1], [1; sh; sw; 1] =>
      oh <~ windowed_output h (Some kh) sh p ;;
      ow <~ windowed_output wd (Some kw) sw p ;;
      Built [n; oh; ow; c]
  | _, _, _ => Failed GraphValueError
  end.

(** [tf.nn.local_response_normalization(x, ...)]. *)
Definition local_response_normalization (x : tensor_shape) : built tensor_shape :=
  match x with
  | [_; _; _; _] => Built x
  | _ => Failed GraphValueError
  end.

(** [tf.nn.relu(x)] and [tf.nn.dropout(x, keep_prob)]. *)
Definition relu (x : tensor_shape) : tensor_shape := x.

Definition dropout (x : tensor_shape) : tensor_shape := x.

(** The product of the dimensions, when all of them are known. *)
Fixpoint known_product (dims : tensor_shape) : option nat :=
  match dims with
  | [] => Some 1
  | Some d :: rest => option_map (Nat.mul d) (known_product rest)
  | None :: _ => None
  end.

(** [_flatten_outer_dims(t)]: the tensor reshaped to a matrix whose
    columns are its last dimension.  The static shape of the result is
    set only when every outer dimension is known; otherwise neither of
    its two dimensions is known when the graph is built. *)
Definition flatten_outer_dims (t : tensor_shape) : built tensor_shape :=
  match rev t with
  | [] => Failed GraphValueError
  | last :: outer =>
      match known_product (rev outer) with
      | Some p => Built [Some p; last]
      | None => Built [None; None]
      end
  end.

(** [tf.nn.softmax_cross_entropy_with_logits(labels, logits)]: both
    arguments are flattened to matrices, whose static shapes must go
    together, and the result has the shape of the logits without their
    last dimension.  (Releases whose loss does not broadcast merge the
    two matrix shapes instead; the rules agree when the shape of either
    matrix is unknown.) *)
Definition softmax_cross_entropy_with_logits (labels logits : tensor_shape)
    : built tensor_shape :=
  precise_logits <~ flatten_outer_dims logits ;;
  flat_labels <~ flatten_outer_dims labels ;;
  _ <~ add precise_logits flat_labels ;;
  Built (removelast logits).

End nn.

End tf.

(** Cells 32 to 37: the wrapper functions.  A variable has the shape of
    its initial value. *)
Definition weight (shape : list nat) : tensor_shape := map Some shape.

Definition bias (shape : list nat) : tensor_shape := map Some shape.

Definition conv (x w : tensor_shape) (stride : nat) (p : padding) : built tensor_shape :=
  tf.nn.conv2d x w [1; stride; stride; 1] p.

Definition max_pool (x : tensor_shape) (kernel stride : nat) (p : padding)
    : built tensor_shape :=
  tf.nn.max_pool x [1; kernel; kernel; 1] [1; stride; stride; 1] p.

Definition lrn (x : tensor_shape) : built tensor_shape :=
  tf.nn.local_response_normalization x.

Definition relu (x : tensor_shape) : tensor_shape := tf.nn.relu x.

(** Cell 41: the placeholders. *)
Definition x_placeholder : tensor_shape := [None; Some 224; Some 224; Some 3].

Definition y_placeholder : tensor_shape := [None; Some 200].

(** [dim[1] * dim[2] * dim[3]] on [dim = t.get_shape().as_list()]. *)
Definition flattened_size (dim : tensor_shape) : built nat :=
  match dim with
  | _ :: Some a :: Some b :: Some c :: _ => Built (a * b * c)
  | _ :: _ :: _ :: _ :: _ => Failed GraphTypeError
  | _ => Failed GraphIndexError
  end.

(** Cells 43 to 59, from the tensor [x] they start with: the shapes of the
    tensors they define. *)
Record network : Type := mk_network {
  conv1 : tensor_shape;
  pool1 : tensor_shape;
  norm1 : tensor_shape;
  conv2 : tensor_shape;
  pool2 : tensor_shape;
  norm2 : tensor_shape;
  conv3 : tensor_shape;
  conv4 : tensor_shape;
  conv5 : tensor_shape;
  pool5 : tensor_shape;
  flattened_dim : nat;
  flattened : tensor_shape;
  fc1 : tensor_shape;
  fc2 : tensor_shape;
  pred : tensor_shape
}.

Definition build_network (x : tensor_shape) : built network :=
  let cnn_w1 := weight [11; 11; 3; 96] in
  let cnn_b1 := bias [96] in
  c <~ conv x cnn_w1 4 SAME ;;
  conv1 <~ tf.add c cnn_b1 ;;
  let conv1 := relu conv1 in
  pool1 <~ max_pool conv1 3 2 VALID ;;
  norm1 <~ lrn pool1 ;;
  let cnn_w2 := weight [5; 5; 96; 256] in
  let cnn_b2 := bias [256] in
  c <~ conv norm1 cnn_w2 1 SAME ;;
  conv2 <~ tf.add c cnn_b2 ;;
  let conv2 := relu conv2 in
  pool2 <~ max_pool conv2 3 2 VALID ;;
  norm2 <~ lrn pool2 ;;
  let cnn_w3 := weight [3; 3; 256; 384] in
  let cnn_b3 := bias [384] in
  c <~ conv norm2 cnn_w3 1 SAME ;;
  conv3 <~ tf.add c cnn_b3 ;;
  let cnn_w4 := weight [3; 3; 384; 384] in
  let cnn_b4 := bias [384] in
  c <~ conv conv3 cnn_w4 1 SAME ;;
  conv4 <~ tf.add c cnn_b4 ;;
  let cnn_w5 := weight [3; 3; 384; 256] in
  let cnn_b5 := bias [256] in
  c <~ conv conv4 cnn_w5 1 SAME ;;
  conv5 <~ tf.add c cnn_b5 ;;
  pool5 <~ max_pool conv5 3 2 VALID ;;
  let dim := pool5 in
  flattened_dim <~ flattened_size dim ;;
  flattened <~ tf.reshape_rows pool5 flattened_dim ;;
  let fc_w1 := weight [flattened_dim; 4096] in
  let fc_b1 := bias [4096] in
  m <~ tf.matmul flattened fc_w1 ;;
  fc1 <~ tf.add m fc_b1 ;;
  let fc1 := relu fc1 in
  let fc1 := tf.nn.dropout fc1 in
  let fc_w2 := weight [4096; 4096] in
  let fc_b2 := bias [4096] in
  m <~ tf.matmul fc1 fc_w2 ;;
  fc2 <~ tf.add m fc_b2 ;;
  let fc2 := relu fc2 in
  let fc2 := tf.nn.dropout fc2 in
  let fc_w3 := weight [4096; 200] in
  let fc_b3 := bias [200] in
  m <~ tf.matmul fc2 fc_w3 ;;
  pred <~ tf.add m fc_b3 ;;
  Built (mk_network conv1 pool1 norm1 conv2 pool2 norm2 conv3 conv4 conv5 pool5
           flattened_dim flattened fc1 fc2 pred).

(** Cell 61: the loss and the accuracy, from the labels [y] and the
    logits [pred]; the shapes of [cross_entropy], [correct_prediction]
    and [accuracy]. *)
Definition build_training (y pred : tensor_shape)
    : built (tensor_shape * tensor_shape * tensor_shape) :=
  losses <~ tf.nn.softmax_cross_entropy_with_logits y pred ;;
  let cross_entropy := tf.reduce_mean losses in
  p <~ tf.argmax_axis1 pred ;;
  t <~ tf.argmax_axis1 y ;;
  correct_prediction <~ tf.equal p t ;;
  let accuracy := tf.reduce_mean correct_prediction in
  Built (cross_entropy, correct_prediction, accuracy).

(** Feeding a list of arrays to a placeholder, as [feed_dict] does in
    cell 62: the list becomes one array with a new first axis, which
    needs arrays of one shape, and its shape must be compatible with the
    placeholder's. *)
Definition stacked_shape {A} (value : list (ndarray A)) : result (list nat) :=
  match value with
  | [] => Ok [0]
  | a :: rest =>
      if forallb (fun b => shape_eqb (shape a) (shape b)) rest
      then Ok (List.length value :: shape a)
      else Err ValueError
  end.

Definition feed {A} (placeholder : tensor_shape) (value : list (ndarray A)) : result unit :=
  result_bind (stacked_shape value) (fun s =>
    if tf.is_compatible_with placeholder (map Some s) then Ok tt else Err ValueError).

(** The extent of a spatial dimension after the first convolution
    (stride 4, padding SAME), after one pooling layer (window 3, stride 2,
    padding VALID), and after the whole convolutional part. *)
Definition after_conv1 (d : nat) : nat := (d + 3) / 4.

Definition after_pool (d : nat) : nat := (d - 3 + 2) / 2.

Definition pooled (d : nat) : nat := after_pool (after_pool (after_pool (after_conv1 d))).

(** * Properties *)

(** ** Lists and indices *)

Lemma firstn_repeat {A} (x : A) (k n : nat) :
  k <= n -> firstn k (repeat x n) = repeat x k.
Proof.
  revert n. induction k as [|k IH]; intros n Hk; [reflexivity|].
  destruct n as [|n]; [lia|]. simpl. f_equal. apply IH. lia.
Qed.

Lemma skipn_repeat {A} (x : A) (k n : nat) :
  skipn k (repeat x n) = repeat x (n - k).
Proof.
  revert n. induction k as [|k IH]; intros n.
  - rewrite Nat.sub_0_r. reflexivity.
  - destruct n as [|n]; [reflexivity|]. simpl. apply IH.
Qed.

Lemma norm_index_in_range (i : Z) (n : nat) :
  (0 <= i < Z.of_nat n)%Z -> norm_index i n = Ok (Z.to_nat i).
Proof.
  intros [H0 Hn]. unfold norm_index.
  destruct (Z.ltb_spec i 0) as [Hneg|_]; [lia|].
  destruct (Z.leb_spec 0 i) as [_|Hneg]; [|lia].
  destruct (Z.ltb_spec i (Z.of_nat n)) as [_|Hbig]; [|lia].
  reflexivity.
Qed.

Lemma norm_index_too_big (i : Z) (n : nat) :
  (Z.of_nat n <= i)%Z -> norm_index i n = Err IndexError.
Proof.
  intros Hbig. unfold norm_index.
  destruct (Z.ltb_spec i 0) as [Hneg|_]; [lia|].
  destruct (Z.ltb_spec i (Z.of_nat n)) as [Hlt|_]; [lia|].
  rewrite andb_false_r. reflexivity.
Qed.

Lemma norm_index_Ok (i : Z) (n k : nat) :
  norm_index i n = Ok k -> k < n.
Proof.
  unfold norm_index.
  destruct (Z.ltb_spec i 0) as [Hneg|Hpos];
    destruct (_ && _)%bool eqn:E; try discriminate;
    intros [= <-]; apply andb_true_iff in E as [E0 E];
    apply Z.ltb_lt in E; apply Z.leb_le in E0; lia.
Qed.

(** ** [one_hot] *)


Lemma one_hot_unit_vector (i : Z) :
  (0 <= i <= 199)%Z -> one_hot i = Ok (unit_vector (Z.to_nat i)).
Proof.
  intros Hi. unfold one_hot, np.setitem. cbn [shape np.zeros].
  rewrite norm_index_in_range by lia.
  cbn [result_bind np.prod_shape fold_right data].
  unfold unit_vector. do 2 f_equal.
  change (data (np.zeros 200)) with (repeat 0%Q 200).
  change (repeat 1%Q 1) with [1%Q].
  rewrite !Nat.mul_1_r, firstn_repeat, skipn_repeat by lia.
  do 3 f_equal. lia.
Qed.

Lemma unit_vector_entry (k j : nat) :
  k < 200 ->
  nth_error (data (unit_vector k)) j =
    if j =? k then Some 1%Q else if j <? 200 then Some 0%Q else None.
Proof.
  intros Hk. cbn [data unit_vector].
  destruct (Nat.eqb_spec j k) as [->|Hne].
  - rewrite nth_error_app2 by (rewrite repeat_length; lia).
    rewrite repeat_length, Nat.sub_diag. reflexivity.
  - destruct (Nat.ltb_spec j 200) as [Hlt|Hge].
    + destruct (Nat.lt_ge_cases j k) as [Hjk|Hjk].
      * rewrite nth_error_app1 by (rewrite repeat_length; lia).
        apply nth_error_repeat. exact Hjk.
      * rewrite nth_error_app2 by (rewrite repeat_length; lia).
        rewrite repeat_length.
        destruct (j - k) as [|d] eqn:Ed; [lia|]. cbn [app nth_error].
        apply nth_error_repeat. lia.
    + apply nth_error_None.
      rewrite !length_app, !repeat_length. cbn [List.length]. lia.
Qed.

(** C8.  For a class index [i] in [0, 199], [one_hot i] returns a vector
    of shape (200,) holding exactly 200 entries, of which the one at
    position [i] is 1.0 and every other one is 0.0; so 1.0 occurs at
    position [i] and nowhere else. *)
Theorem one_hot_spec (i : Z) :
  (0 <= i <= 199)%Z ->
  exists vec : ndarray float,
    one_hot i = Ok vec /\
    shape vec = [200] /\
    List.length (data vec) = 200 /\
    nth_error (data vec) (Z.to_nat i) = Some 1%Q /\
    (forall j, j < 200 -> j <> Z.to_nat i -> nth_error (data vec) j = Some 0%Q) /\
    (forall j, nth_error (data vec) j = Some 1%Q <-> j = Z.to_nat i).
Proof.
  intros Hi. exists (unit_vector (Z.to_nat i)).
  assert (Hk : Z.to_nat i < 200) by lia.
  split; [apply one_hot_unit_vector; exact Hi|].
  split; [reflexivity|].
  split.
  { cbn [data unit_vector]. rewrite !length_app, !repeat_length.
    cbn [List.length]. lia. }
  split.
  { rewrite unit_vector_entry by exact Hk. rewrite Nat.eqb_refl. reflexivity. }
  split.
  { intros j Hj Hne. rewrite unit_vector_entry by exact Hk.
    destruct (Nat.eqb_spec j (Z.to_nat i)); [contradiction|].
    destruct (Nat.ltb_spec j 200); [reflexivity|lia]. }
  intros j. rewrite unit_vector_entry by exact Hk.
  destruct (Nat.eqb_spec j (Z.to_nat i)) as [->|Hne].
  - split; reflexivity.
  - split; [|contradiction].
    destruct (j <? 200); intros H; discriminate H.
Qed.

Lemma one_hot_spec_witness :
  (0 <= 7 <= 199)%Z /\
  exists vec : ndarray float,
    one_hot 7 = Ok vec /\
    shape vec = [200] /\
    List.length (data vec) = 200 /\
    nth_error (data vec) (Z.to_nat 7) = Some 1%Q /\
    (forall j, j < 200 -> j <> Z.to_nat 7 -> nth_error (data vec) j = Some 0%Q) /\
    (forall j, nth_error (data vec) j = Some 1%Q <-> j = Z.to_nat 7).
Proof.
  split; [lia|]. apply (one_hot_spec 7). lia.
Defined.

(** ** [preprocess] *)

Lemma nth_error_mapi_from {A B} (f : nat -> A -> B) (l : list A) (k j : nat) :
  nth_error (mapi_from f k l) j = option_map (f (k + j)) (nth_error l j).
Proof.
  revert k j. induction l as [|x t IH]; intros k j.
  - destruct j; reflexivity.
  - destruct j as [|j]; cbn [mapi_from nth_error option_map].
    + rewrite Nat.add_0_r. reflexivity.
    + rewrite IH. f_equal. f_equal. lia.
Qed.

Lemma nth_error_mapi {A B} (f : nat -> A -> B) (l : list A) (j : nat) :
  nth_error (mapi f l) j = option_map (f j) (nth_error l j).
Proof. unfold mapi. apply nth_error_mapi_from. Qed.

Lemma length_mapi_from {A B} (f : nat -> A -> B) (l : list A) (k : nat) :
  List.length (mapi_from f k l) = List.length l.
Proof.
  revert k. induction l as [|x t IH]; intros k; cbn [mapi_from List.length].
  - reflexivity.
  - rewrite IH. reflexivity.
Qed.

Lemma length_mapi {A B} (f : nat -> A -> B) (l : list A) :
  List.length (mapi f l) = List.length l.
Proof. apply length_mapi_from. Qed.

(** Row-major position of element [(y, x, c)] in an array of width [w]
    with three bands. *)
Lemma flat_index_3 (w y x c : nat) :
  x < w -> c < 3 ->
  let i := (y * w + x) * 3 + c in
  i mod 3 = c /\ (i / 3) mod w = x /\ i / (3 * w) = y.
Proof.
  intros Hx Hc i. subst i.
  assert (H3 : ((y * w + x) * 3 + c) / 3 = y * w + x).
  { rewrite Nat.div_add_l by lia. rewrite (Nat.div_small c 3) by lia. lia. }
  split; [|split].
  - rewrite Nat.add_comm, Nat.Div0.mod_add. apply Nat.mod_small. exact Hc.
  - rewrite H3, Nat.add_comm, Nat.Div0.mod_add. apply Nat.mod_small. exact Hx.
  - rewrite <- Nat.Div0.div_div, H3.
    rewrite Nat.div_add_l by lia. rewrite (Nat.div_small x w) by lia. lia.
Qed.

Lemma byte_value_range (b : byte) : (0 <= byte_value b <= 255)%Z.
Proof.
  unfold byte_value. pose proof (Byte.to_N_bounded b) as H. lia.
Qed.

Lemma shape_array_of_image (im : raster rgb) :
  shape (array_of_image im) = [height im; width im; 3].
Proof. reflexivity. Qed.

Lemma array_of_image_entry (im : raster rgb) (y x c : nat) :
  y < height im -> x < width im -> c < 3 ->
  getitem3 (array_of_image im) y x c = Some (byte_value (band (getpixel im x y) c)).
Proof.
  intros Hy Hx Hc. unfold getitem3. rewrite shape_array_of_image.
  destruct (Nat.ltb_spec y (height im)); [|lia].
  destruct (Nat.ltb_spec x (width im)); [|lia].
  destruct (Nat.ltb_spec c 3); [|lia].
  cbn [andb]. unfold array_of_image. cbn [data].
  destruct (flat_index_3 (width im) y x c Hx Hc) as (E3 & Ew & Ey).
  rewrite nth_error_map, nth_error_seq.
  destruct (Nat.ltb_spec ((y * width im + x) * 3 + c) (height im * width im * 3)) as [_|Hbig];
    [|nia].
  cbn [option_map Nat.add]. rewrite E3, Ew, Ey. reflexivity.
Qed.


Lemma isub_channel_rgb (h w : nat) (d : list Z) (k : nat) (m : Z) :
  k < 3 ->
  np.isub_channel (mk_ndarray [h; w; 3] d) (Z.of_nat k) m =
    Ok (mk_ndarray [h; w; 3] (mapi (sub_mean k m) d)).
Proof.
  intros Hk. unfold np.isub_channel. cbn [shape data].
  rewrite norm_index_in_range by lia.
  rewrite Nat2Z.id. reflexivity.
Qed.

Lemma preprocess_eq `{Resampler} (image : raster rgb) :
  preprocess image = Ok (preprocessed image).
Proof.
  unfold preprocess, preprocessed.
  change (range 3) with [Z.of_nat 0; Z.of_nat 1; Z.of_nat 2].
  change (array_of_image (Image.resize image (224, 224)))
    with (mk_ndarray [224; 224; 3]
            (data (array_of_image (Image.resize image (224, 224))))).
  cbn [for_each_result].
  change (list_getitem means (Z.of_nat 0)) with (Ok 142%Z).
  change (list_getitem means (Z.of_nat 1)) with (Ok 143%Z).
  change (list_getitem means (Z.of_nat 2)) with (Ok 145%Z).
  cbn [result_bind].
  rewrite isub_channel_rgb by lia. cbn [result_bind].
  rewrite isub_channel_rgb by lia. cbn [result_bind].
  rewrite isub_channel_rgb by lia. cbn [result_bind].
  reflexivity.
Qed.

Lemma wrap32_small (z : Z) :
  (-2147483648 <= z < 2147483648)%Z -> wrap32 z = z.
Proof.
  intros Hz. unfold wrap32.
  rewrite Z.mod_small by lia. lia.
Qed.

Lemma preprocessed_entry `{Resampler} (image : raster rgb) (y x c : nat) :
  y < 224 -> x < 224 -> c < 3 ->
  getitem3 (preprocessed image) y x c =
    Some (byte_value (band (resample image 224 224 x y) c) - nth c means 0)%Z.
Proof.
  intros Hy Hx Hc.
  pose proof (array_of_image_entry (Image.resize image (224, 224)) y x c Hy Hx Hc) as Eraw.
  unfold getitem3 in Eraw |- *. rewrite shape_array_of_image in Eraw.
  unfold preprocessed.
  cbn [shape data Image.resize width height getpixel] in Eraw |- *.
  destruct ((y <? 224) && (x <? 224) && (c <? 3)); [|discriminate Eraw].
  rewrite !nth_error_mapi, Eraw. cbn [option_map].
  destruct (flat_index_3 224 y x c Hx Hc) as (E3 & _ & _).
  unfold sub_mean. rewrite E3.
  pose proof (byte_value_range (band (resample image 224 224 x y) c)) as Hb.
  f_equal.
  destruct c as [|[|[|c]]]; [| | |lia]; cbn [Nat.eqb nth means];
    rewrite wrap32_small by lia; reflexivity.
Qed.

Lemma length_preprocessed `{Resampler} (image : raster rgb) :
  List.length (data (preprocessed image)) = 224 * 224 * 3.
Proof.
  unfold preprocessed. cbn [data].
  rewrite !length_mapi. unfold array_of_image. cbn [data].
  rewrite length_map, length_seq. reflexivity.
Qed.

(** C7.  Whatever the width, the height and the pixels of the image
    handed to [preprocess], the call succeeds and the array it returns
    has shape (224, 224, 3), with one entry per position. *)
Theorem preprocess_output_shape (RK : Resampler) (w h : nat) (px : nat -> nat -> rgb) :
  exists out : ndarray Z,
    preprocess (mk_raster w h px) = Ok out /\
    shape out = [224; 224; 3] /\
    List.length (data out) = 224 * 224 * 3.
Proof.
  exists (preprocessed (mk_raster w h px)).
  split; [apply preprocess_eq|].
  split; [reflexivity|apply length_preprocessed].
Qed.


(** C6.  For every image, [preprocess] succeeds and entry [(y, x, c)] of
    its result is the entry [(y, x, c)] of the resized image, a value in
    [0, 255], minus the mean of channel [c], the means being 142, 143
    and 145; the difference is kept as it is, so it is negative whenever
    the raw value is below the mean (a black image gives -142).  The
    result does not depend on the world in which [preprocess] runs, and
    running it leaves the generator and the log untouched. *)
Theorem preprocess_pixel_values :
  means = [142; 143; 145]%Z /\
  (forall (RK : Resampler) (image : raster rgb),
     exists out : ndarray Z,
       preprocess image = Ok out /\
       (forall y x c, y < 224 -> x < 224 -> c < 3 ->
          exists v : Z,
            getitem3 (array_of_image (Image.resize image (224, 224))) y x c = Some v /\
            (0 <= v <= 255)%Z /\
            getitem3 out y x c = Some (v - nth c means 0)%Z) /\
       (forall (RS : RandomSource) (w1 w2 : world),
          lift (preprocess image) w1 = Ret out w1 /\
          lift (preprocess image) w2 = Ret out w2)) /\
  (exists out : ndarray Z,
     @preprocess nearest_resampler black_pixel = Ok out /\
     getitem3 out 0 0 0 = Some (-142)%Z).
Proof.
  split; [reflexivity|]. split.
  - intros RK image. exists (preprocessed image).
    split; [apply preprocess_eq|]. split.
    + intros y x c Hy Hx Hc.
      exists (byte_value (band (resample image 224 224 x y) c)).
      split; [|split].
      * apply (array_of_image_entry (Image.resize image (224, 224))); assumption.
      * apply byte_value_range.
      * apply preprocessed_entry; assumption.
    + intros RS w1 w2. rewrite preprocess_eq. split; reflexivity.
  - exists (@preprocessed nearest_resampler black_pixel).
    split; [apply preprocess_eq|].
    rewrite preprocessed_entry by lia. reflexivity.
Qed.

(** ** Running programs *)

Section Run.

Context {RS : RandomSource}.

Lemma bind_Ret {A B} (m : M A) (k : A -> M B) (w w1 : world) (a : A) :
  m w = Ret a w1 -> bind m k w = k a w1.
Proof. intros E. unfold bind. rewrite E. reflexivity. Qed.

Lemma bind_Raise {A B} (m : M A) (k : A -> M B) (w w1 : world) (e : exn) :
  m w = Raise e w1 -> bind m k w = Raise e w1.
Proof. intros E. unfold bind. rewrite E. reflexivity. Qed.

Lemma bind_Timeout {A B} (m : M A) (k : A -> M B) (w w1 : world) :
  m w = Timeout w1 -> bind m k w = Timeout w1.
Proof. intros E. unfold bind. rewrite E. reflexivity. Qed.

Lemma bind_Ret_inv {A B} (m : M A) (k : A -> M B) (w w2 : world) (b : B) :
  bind m k w = Ret b w2 ->
  exists a w1, m w = Ret a w1 /\ k a w1 = Ret b w2.
Proof.
  unfold bind. destruct (m w) as [a w1|e w1|w1]; intros E; try discriminate E.
  exists a, w1. split; [reflexivity|exact E].
Qed.

Lemma lift_Ret_inv {A} (r : result A) (w w1 : world) (a : A) :
  lift r w = Ret a w1 -> r = Ok a /\ w1 = w.
Proof.
  destruct r as [a'|e]; cbn; intros E; inversion E. split; reflexivity.
Qed.

(** What [os.listdir] does in a world, case by case. *)
Lemma listdir_run (p : string) (w : world) :
  os.listdir p w =
    let w' := mk_world (fs w) (gen w) (EvListdir p :: log w) in
    match resolve (fs w) p with
    | Some (Dir true entries) => Ret (map fst entries) w'
    | Some (Dir false _) => Raise PermissionError w'
    | Some (File _) => Raise NotADirectoryError w'
    | None => Raise FileNotFoundError w'
    end.
Proof.
  unfold os.listdir, bind, emit, tree. cbn [fs gen log].
  destruct (resolve (fs w) p) as [[c|[|] entries]|]; reflexivity.
Qed.

Lemma exists_run (p : string) (w : world) :
  os.path.exists_ p w =
    Ret (match resolve (fs w) p with Some _ => true | None => false end)
        (mk_world (fs w) (gen w) (EvExists p :: log w)).
Proof. reflexivity. Qed.

Lemma open_run (p : string) (w : world) :
  Image.open p w =
    let w' := mk_world (fs w) (gen w) (EvOpen p :: log w) in
    match resolve (fs w) p with
    | Some (File (Some im)) => Ret im w'
    | Some (File None) => Raise OSError w'
    | Some (Dir _ _) => Raise IsADirectoryError w'
    | None => Raise FileNotFoundError w'
    end.
Proof.
  unfold Image.open, bind, emit, tree. cbn [fs gen log].
  destruct (resolve (fs w) p) as [[[im|]|r entries]|]; reflexivity.
Qed.

End Run.

(** ** [get_wnids] *)

(** C9.  [get_wnids] makes one [os.listdir] call on the root and hands
    its outcome on unchanged.  On a readable directory the result is the
    list of entry names exactly as the directory lists them: same order,
    same multiplicity, nothing filtered or checked; on the data set's
    layout, where every entry of the root is a class folder, that is the
    sequence of the first-level subdirectory identifiers in listing
    order.  A missing root raises [FileNotFoundError], an unreadable one
    [PermissionError], a root that is a file [NotADirectoryError]; in
    each case after that single attempt. *)
Theorem get_wnids_spec (RS : RandomSource) (folder_path : string) (w : world) :
  let w' := mk_world (fs w) (gen w) (EvListdir folder_path :: log w) in
  get_wnids folder_path w =
    match resolve (fs w) folder_path with
    | Some (Dir true entries) => Ret (map fst entries) w'
    | Some (Dir false _) => Raise PermissionError w'
    | Some (File _) => Raise NotADirectoryError w'
    | None => Raise FileNotFoundError w'
    end /\
  (forall entries,
     resolve (fs w) folder_path = Some (Dir true entries) ->
     forallb (fun e => is_dir (snd e)) entries = true ->
     get_wnids folder_path w = Ret (subdirectories entries) w').
Proof.
  intros w'.
  assert (Hrun : get_wnids folder_path w =
                 match resolve (fs w) folder_path with
                 | Some (Dir true entries) => Ret (map fst entries) w'
                 | Some (Dir false _) => Raise PermissionError w'
                 | Some (File _) => Raise NotADirectoryError w'
                 | None => Raise FileNotFoundError w'
                 end).
  { unfold get_wnids, bind. rewrite listdir_run. cbn zeta. fold w'.
    destruct (resolve (fs w) folder_path) as [[c|[|] entries]|]; reflexivity. }
  split; [exact Hrun|].
  intros entries Hdir Hall. rewrite Hrun, Hdir.
  unfold subdirectories. rewrite (forallb_filter_id _ _ Hall). reflexivity.
Qed.

Lemma get_wnids_spec_witness :
  resolve three_classes "root" =
    Some (Dir true
            [("a", class_folder [("a_0.JPEG", File (Some grey64))]);
             ("b", class_folder [("b_0.JPEG", File (Some grey64))]);
             ("c", class_folder [("c_0.JPEG", File (Some grey64))])]) /\
  @get_wnids scripted "root" (boot three_classes []) =
    Ret ["a"; "b"; "c"] (@mk_world scripted three_classes [] [EvListdir "root"]).
Proof.
  split; [reflexivity|].
  exact (proj2 (get_wnids_spec scripted "root" (boot three_classes [])) _ eq_refl eq_refl).
Defined.

Example get_wnids_three_classes :
  @get_wnids scripted "root" (boot three_classes []) =
    Ret ["a"; "b"; "c"] (@mk_world scripted three_classes [] [EvListdir "root"]).
Proof. reflexivity. Qed.

Example get_wnids_lists_every_entry :
  @get_wnids scripted "root" (boot damaged []) =
    Ret ["a"; "b"; "c"; "d"; "words.txt"]
        (@mk_world scripted damaged [] [EvListdir "root"]).
Proof. reflexivity. Qed.

Example get_wnids_missing_root :
  @get_wnids scripted "tiny-imagenet-200/train" (boot three_classes []) =
    Raise FileNotFoundError
      (@mk_world scripted three_classes [] [EvListdir "tiny-imagenet-200/train"]).
Proof. reflexivity. Qed.

(** ** [read_batch] with an empty batch *)

(** C10 (as the code has it).  With [batch_size = 0] the loop body never
    runs, so no class index is drawn and the file system is not read:
    generator and log are those of the call.  The call does not return
    two empty lists, though: [np.vstack] of the empty [batch_images]
    raises [ValueError]. *)
Theorem read_batch_zero (RS : RandomSource) (RK : Resampler) (fuel : nat)
    (images_source : string) (wnid_labels : list string) (w : world) :
  read_batch fuel 0 images_source wnid_labels w = Raise ValueError w.
Proof. reflexivity. Qed.

(** ** Steps of the sampler *)

Section Sampler.

Context {RS : RandomSource} {RK : Resampler}.

Lemma randbelow_run (n : nat) (w : world) :
  random.randbelow n w = Ret (drawn w n) (after_draw w n).
Proof.
  unfold random.randbelow, drawn, after_draw.
  destruct (rng_randbelow (gen w) n) as [k s]. reflexivity.
Qed.

Lemma drawn_lt (w : world) (n : nat) : 0 < n -> drawn w n < n.
Proof. apply rng_randbelow_lt. Qed.

Lemma randint_run (w : world) :
  random.randint 0 199 w = Ret (Z.of_nat (drawn w 200)) (after_draw w 200).
Proof.
  unfold random.randint.
  change (0 <? 199 + 1 - 0)%Z with true. cbn iota zeta.
  change (Z.to_nat (199 + 1 - 0)) with 200.
  rewrite (bind_Ret _ _ _ _ _ (randbelow_run 200 w)). reflexivity.
Qed.

Lemma list_getitem_nat {A} (l : list A) (k : nat) :
  list_getitem l (Z.of_nat k) =
    match nth_error l k with
    | Some x => Ok x
    | None => Err IndexError
    end.
Proof.
  unfold list_getitem.
  destruct (Nat.lt_ge_cases k (List.length l)) as [Hlt|Hge].
  - rewrite norm_index_in_range by lia. cbn [result_bind].
    rewrite Nat2Z.id. reflexivity.
  - rewrite norm_index_too_big by lia. cbn [result_bind].
    apply nth_error_None in Hge. rewrite Hge. reflexivity.
Qed.

Lemma choice_run {A} (l : list A) (d : A) (w : world) :
  l <> [] ->
  random.choice l w = Ret (nth (drawn w (List.length l)) l d) (after_draw w (List.length l)).
Proof.
  intros Hl. destruct l as [|x l]; [contradiction|].
  unfold random.choice.
  rewrite (bind_Ret _ _ _ _ _ (randbelow_run (List.length (x :: l)) w)).
  rewrite list_getitem_nat.
  assert (Hlt : drawn w (List.length (x :: l)) < List.length (x :: l)).
  { apply drawn_lt. cbn [List.length]. lia. }
  rewrite (nth_error_nth' (x :: l) d Hlt). reflexivity.
Qed.

Lemma choice_empty {A} (w : world) :
  random.choice (@nil A) w = Raise IndexError w.
Proof. reflexivity. Qed.

(** *** The folder loop *)

Lemma find_folder_S (fuel : nat) (images_source : string)
    (wnid_labels : list string) (class_index : Z) :
  find_folder (S fuel) images_source wnid_labels class_index =
    (wnid <- lift (list_getitem wnid_labels class_index) ;;
     let folder := os.path.join wnid "images" in
     found <- os.path.exists_ (os.path.join images_source folder) ;;
     if found then ret folder
     else find_folder fuel images_source wnid_labels class_index).
Proof. reflexivity. Qed.

Lemma repeat_snoc_app {A} (x : A) (n : nat) (l : list A) :
  repeat x n ++ x :: l = x :: repeat x n ++ l.
Proof.
  induction n as [|n IH]; [reflexivity|].
  cbn [repeat app]. rewrite IH. reflexivity.
Qed.

Lemma find_folder_index_error (fuel : nat) (images_source : string)
    (wnid_labels : list string) (class_index : Z) (e : exn) (w : world) :
  list_getitem wnid_labels class_index = Err e ->
  find_folder (S fuel) images_source wnid_labels class_index w = Raise e w.
Proof.
  intros E. rewrite find_folder_S. unfold bind. rewrite E. reflexivity.
Qed.

Lemma find_folder_found (fuel : nat) (images_source : string)
    (wnid_labels : list string) (class_index : Z) (wnid : string) (n : node)
    (w : world) :
  list_getitem wnid_labels class_index = Ok wnid ->
  resolve (fs w) (os.path.join images_source (os.path.join wnid "images")) = Some n ->
  find_folder (S fuel) images_source wnid_labels class_index w =
    Ret (os.path.join wnid "images")
        (logged (EvExists (os.path.join images_source (os.path.join wnid "images"))) w).
Proof.
  intros E Hn. rewrite find_folder_S. unfold bind at 1. rewrite E.
  cbn [lift ret]. cbn zeta. unfold bind. rewrite exists_run, Hn. reflexivity.
Qed.

Lemma find_folder_missing (fuel : nat) (images_source : string)
    (wnid_labels : list string) (class_index : Z) (wnid : string) (w : world) :
  list_getitem wnid_labels class_index = Ok wnid ->
  resolve (fs w) (os.path.join images_source (os.path.join wnid "images")) = None ->
  find_folder fuel images_source wnid_labels class_index w = Timeout
            (mk_world (fs w) (gen w)
               (repeat (EvExists (os.path.join images_source (os.path.join wnid "images")))
                       fuel ++ log w)).
Proof.
  intros E. revert w. induction fuel as [|fuel IH]; intros w Hn.
  - destruct w; reflexivity.
  - rewrite find_folder_S. unfold bind at 1. rewrite E.
    cbn [lift ret]. cbn zeta. unfold bind. rewrite exists_run, Hn.
    rewrite IH by exact Hn. cbn [fs gen log repeat app].
    rewrite repeat_snoc_app. reflexivity.
Qed.

Lemma find_folder_Ret_inv (fuel : nat) (images_source : string)
    (wnid_labels : list string) (class_index : Z) (folder : string)
    (w w' : world) :
  find_folder fuel images_source wnid_labels class_index w = Ret folder w' ->
  exists wnid,
    list_getitem wnid_labels class_index = Ok wnid /\
    folder = os.path.join wnid "images" /\
    resolve (fs w) (os.path.join images_source folder) <> None /\
    w' = logged (EvExists (os.path.join images_source folder)) w.
Proof.
  destruct fuel as [|fuel]; [discriminate|].
  destruct (list_getitem wnid_labels class_index) as [wnid|e] eqn:E.
  - destruct (resolve (fs w) (os.path.join images_source (os.path.join wnid "images")))
      as [n|] eqn:Hn.
    + rewrite (find_folder_found _ _ _ _ _ _ _ E Hn). intros [= <- <-].
      exists wnid. repeat split; try reflexivity. rewrite Hn. discriminate.
    + rewrite (find_folder_missing _ _ _ _ _ _ E Hn). discriminate.
  - rewrite (find_folder_index_error _ _ _ _ _ _ E). discriminate.
Qed.

(** *** The image loop *)

Lemma read_image_S (fuel : nat) (images_folder : string) :
  read_image (S fuel) images_folder =
    (names <- os.listdir images_folder ;;
     name <- random.choice names ;;
     let image_path := os.path.join images_folder name in
     im <- Image.open image_path ;;
     let img := Image.convert_RGB im in
     if shape_eqb (shape (array_of_image img)) [64; 64; 3]
     then lift (preprocess img)
     else read_image fuel images_folder).
Proof. reflexivity. Qed.

Lemma read_image_empty (fuel : nat) (folder : string) (w : world) :
  resolve (fs w) folder = Some (Dir true []) ->
  read_image (S fuel) folder w = Raise IndexError (logged (EvListdir folder) w).
Proof.
  intros Hdir. rewrite read_image_S. unfold bind.
  rewrite listdir_run, Hdir. reflexivity.
Qed.

(** One pass through the loop on a readable, non-empty folder. *)
Lemma read_image_attempt (fuel : nat) (folder : string)
    (entries : list (string * node)) (w : world) :
  resolve (fs w) folder = Some (Dir true entries) ->
  entries <> [] ->
  let names := map fst entries in
  let w' := after_attempt w folder names in
  read_image (S fuel) folder w =
    match resolve (fs w) (os.path.join folder (attempt_name (gen w) names 0)) with
    | Some (File (Some im)) =>
        if shape_eqb (shape (array_of_image (Image.convert_RGB im))) [64; 64; 3]
        then Ret (preprocessed (Image.convert_RGB im)) w'
        else read_image fuel folder w'
    | Some (File None) => Raise OSError w'
    | Some (Dir _ _) => Raise IsADirectoryError w'
    | None => Raise FileNotFoundError w'
    end.
Proof.
  intros Hdir Hne names w'.
  assert (Hnames : names <> []).
  { unfold names. destruct entries; [contradiction|discriminate]. }
  rewrite read_image_S. unfold bind at 1.
  rewrite listdir_run, Hdir. cbn zeta. unfold bind at 1.
  rewrite (choice_run names EmptyString _ Hnames). cbn zeta. unfold bind.
  rewrite open_run. cbn zeta.
  subst w'. unfold after_attempt, attempt_name, nth_draw, after_draw, drawn.
  cbn [fs gen log gen_after].
  destruct (resolve (fs w)
              (os.path.join folder
                 (nth (fst (rng_randbelow (gen w) (List.length names))) names EmptyString)))
    as [[[im|]|r sub]|]; try reflexivity.
  destruct (shape_eqb (shape (array_of_image (Image.convert_RGB im))) [64; 64; 3]);
    [|reflexivity].
  rewrite preprocess_eq. reflexivity.
Qed.

Lemma attempt_name_In (s : rng_state) (names : list string) (j : nat) :
  names <> [] -> In (attempt_name s names j) names.
Proof.
  intros Hne. unfold attempt_name, nth_draw. apply nth_In.
  apply rng_randbelow_lt. destruct names; [contradiction|cbn; lia].
Qed.

Lemma attempt_name_next (w : world) (folder : string) (names : list string) (j : nat) :
  attempt_name (gen (after_attempt w folder names)) names j =
    attempt_name (gen w) names (S j).
Proof. reflexivity. Qed.

Lemma shape_eqb_eq (s t : list nat) : shape_eqb s t = true <-> s = t.
Proof.
  revert t. induction s as [|a s IH]; intros [|b t]; cbn [shape_eqb];
    try (split; [discriminate|discriminate]); [split; reflexivity|].
  rewrite andb_true_iff, Nat.eqb_eq, IH. split.
  - intros [-> ->]. reflexivity.
  - intros [= -> ->]. split; reflexivity.
Qed.

Lemma loadable_inv (root : node) (folder name : string) :
  loadable root folder name = true ->
  exists im, resolve root (os.path.join folder name) = Some (File (Some im)).
Proof.
  unfold loadable.
  destruct (resolve root (os.path.join folder name)) as [[[im|]|r sub]|];
    try discriminate.
  intros _. exists im. reflexivity.
Qed.

Lemma conforming_file (root : node) (folder name : string) (im : image) :
  resolve root (os.path.join folder name) = Some (File (Some im)) ->
  conforming root folder name =
    shape_eqb (shape (array_of_image (Image.convert_RGB im))) [64; 64; 3].
Proof. intros E. unfold conforming. rewrite E. reflexivity. Qed.

(** A conforming image at draw [j]: [j + 1] passes suffice. *)
Lemma read_image_reaches (folder : string) (entries : list (string * node)) (j : nat) :
  entries <> [] ->
  forall w : world,
    resolve (fs w) folder = Some (Dir true entries) ->
    (forall name, In name (map fst entries) -> loadable (fs w) folder name = true) ->
    conforming (fs w) folder (attempt_name (gen w) (map fst entries) j) = true ->
    exists arr w', read_image (S j) folder w = Ret arr w'.
Proof.
  intros Hne. induction j as [|j IH]; intros w Hdir Hall Hconf;
    rewrite (read_image_attempt _ folder entries w Hdir Hne); cbn zeta.
  - unfold conforming in Hconf.
    destruct (resolve (fs w) (os.path.join folder (attempt_name (gen w) (map fst entries) 0)))
      as [[[im|]|r sub]|]; try discriminate Hconf.
    rewrite Hconf. eexists _, _. reflexivity.
  - assert (Hin : In (attempt_name (gen w) (map fst entries) 0) (map fst entries)).
    { apply attempt_name_In. destruct entries; [contradiction|discriminate]. }
    destruct (loadable_inv _ _ _ (Hall _ Hin)) as [im Him]. rewrite Him.
    destruct (shape_eqb (shape (array_of_image (Image.convert_RGB im))) [64; 64; 3]).
    + eexists _, _. reflexivity.
    + apply (IH (after_attempt w folder (map fst entries))); assumption.
Qed.

(** What a returned array tells about the draws: it is the image at
    the first draw that conforms. *)
Lemma read_image_Ret_inv (folder : string) (entries : list (string * node)) (fuel : nat) :
  forall (w w' : world) (arr : ndarray Z),
    resolve (fs w) folder = Some (Dir true entries) ->
    read_image fuel folder w = Ret arr w' ->
    exists j im,
      j < fuel /\
      resolve (fs w) (os.path.join folder (attempt_name (gen w) (map fst entries) j))
        = Some (File (Some im)) /\
      shape (array_of_image (Image.convert_RGB im)) = [64; 64; 3] /\
      arr = preprocessed (Image.convert_RGB im) /\
      (forall i, i < j ->
         conforming (fs w) folder (attempt_name (gen w) (map fst entries) i) = false) /\
      gen w' = gen_after (gen w) (List.length (map fst entries)) (S j).
Proof.
  induction fuel as [|fuel IH]; intros w w' arr Hdir Hret; [discriminate Hret|].
  destruct entries as [|e0 rest] eqn:Hent.
  { rewrite (read_image_empty _ _ _ Hdir) in Hret. discriminate Hret. }
  rewrite <- Hent in *.
  assert (Hne : entries <> []) by (rewrite Hent; discriminate).
  rewrite (read_image_attempt fuel folder entries w Hdir Hne) in Hret.
  cbn zeta in Hret.
  destruct (resolve (fs w) (os.path.join folder (attempt_name (gen w) (map fst entries) 0)))
    as [[[im|]|r sub]|] eqn:Him; try discriminate Hret.
  destruct (shape_eqb (shape (array_of_image (Image.convert_RGB im))) [64; 64; 3]) eqn:Hshape.
  - injection Hret as <- <-. exists 0, im.
    repeat split; [lia|exact Him|apply shape_eqb_eq; exact Hshape|].
    intros i Hi. lia.
  - destruct (IH (after_attempt w folder (map fst entries)) w' arr Hdir Hret)
      as (j & im' & Hj & Him' & Hs' & Harr & Hmin & Hgen).
    exists (S j), im'.
    repeat split; [lia|exact Him'|exact Hs'|exact Harr| |exact Hgen].
    intros [|i] Hi.
    + rewrite (conforming_file _ _ _ _ Him). exact Hshape.
    + apply (Hmin i). lia.
Qed.

(** Draws that only ever pick images of another size: every budget runs
    out. *)
Lemma read_image_misses (folder : string) (entries : list (string * node)) (fuel : nat) :
  entries <> [] ->
  forall w : world,
    resolve (fs w) folder = Some (Dir true entries) ->
    (forall j,
       loadable (fs w) folder (attempt_name (gen w) (map fst entries) j) = true /\
       conforming (fs w) folder (attempt_name (gen w) (map fst entries) j) = false) ->
    exists w', read_image fuel folder w = Timeout w'.
Proof.
  intros Hne. induction fuel as [|fuel IH]; intros w Hdir Hall.
  - exists w. reflexivity.
  - rewrite (read_image_attempt fuel folder entries w Hdir Hne). cbn zeta.
    destruct (Hall 0) as [Hload Hconf].
    destruct (loadable_inv _ _ _ Hload) as [im Him].
    rewrite (conforming_file _ _ _ _ Him) in Hconf.
    rewrite Him, Hconf.
    apply IH; [exact Hdir|]. intros j. exact (Hall (S j)).
Qed.

(** No conforming image among loadable ones: every budget runs out. *)
Lemma read_image_never (folder : string) (entries : list (string * node)) (fuel : nat) :
  entries <> [] ->
  forall w : world,
    resolve (fs w) folder = Some (Dir true entries) ->
    (forall name, In name (map fst entries) ->
       loadable (fs w) folder name = true /\ conforming (fs w) folder name = false) ->
    exists w', read_image fuel folder w = Timeout w'.
Proof.
  intros Hne w Hdir Hall.
  apply (read_image_misses folder entries fuel Hne w Hdir).
  intros j. apply Hall. apply attempt_name_In.
  destruct entries; [contradiction|discriminate].
Qed.

(** [read_image] only reads the directory tree. *)
Lemma read_image_fs (fuel : nat) (folder : string) (w w' : world) (arr : ndarray Z) :
  read_image fuel folder w = Ret arr w' -> fs w' = fs w.
Proof.
  revert w. induction fuel as [|fuel IH]; intros w Hret; [discriminate Hret|].
  rewrite read_image_S in Hret.
  apply bind_Ret_inv in Hret as (names & w1 & Hlist & Hret).
  apply bind_Ret_inv in Hret as (name & w2 & Hname & Hret).
  cbn zeta in Hret.
  apply bind_Ret_inv in Hret as (im & w3 & Hopen & Hret).
  assert (H1 : fs w1 = fs w).
  { rewrite listdir_run in Hlist. cbn zeta in Hlist.
    destruct (resolve (fs w) folder) as [[c|[|] entries]|];
      try discriminate Hlist.
    injection Hlist as _ <-. reflexivity. }
  assert (H2 : fs w2 = fs w1).
  { destruct names as [|n0 names]; [discriminate Hname|].
    rewrite (choice_run (n0 :: names) EmptyString w1) in Hname by discriminate.
    injection Hname as _ <-. reflexivity. }
  assert (H3 : fs w3 = fs w2).
  { rewrite open_run in Hopen. cbn zeta in Hopen.
    destruct (resolve (fs w2) (os.path.join folder name)) as [[[im'|]|r sub]|];
      try discriminate Hopen.
    injection Hopen as _ <-. reflexivity. }
  destruct (shape_eqb (shape (array_of_image (Image.convert_RGB im))) [64; 64; 3]).
  - apply lift_Ret_inv in Hret as [_ ->]. congruence.
  - apply IH in Hret. congruence.
Qed.

(** *** One pass of the batch loop *)

Lemma read_batch_step_run (fuel : nat) (images_source : string)
    (wnid_labels : list string) (batch_images : list (ndarray Z))
    (batch_labels : list (ndarray float)) (w : world) :
  read_batch_step fuel images_source wnid_labels (batch_images, batch_labels) w =
    (folder <- find_folder fuel images_source wnid_labels (Z.of_nat (drawn w 200)) ;;
     img <- read_image fuel (os.path.join images_source folder) ;;
     lbl <- lift (one_hot (Z.of_nat (drawn w 200))) ;;
     ret (batch_images ++ [img], batch_labels ++ [lbl])) (after_draw w 200).
Proof.
  unfold read_batch_step.
  rewrite (bind_Ret _ _ _ _ _ (randint_run w)). reflexivity.
Qed.

Lemma one_hot_drawn (w : world) :
  one_hot (Z.of_nat (drawn w 200)) = Ok (unit_vector (drawn w 200)).
Proof.
  pose proof (drawn_lt w 200 ltac:(lia)) as Hk.
  rewrite one_hot_unit_vector by lia. rewrite Nat2Z.id. reflexivity.
Qed.

Lemma read_batch_step_index_error (fuel : nat) (images_source : string)
    (wnid_labels : list string) (acc : batch) (w : world) :
  List.length wnid_labels <= drawn w 200 ->
  read_batch_step (S fuel) images_source wnid_labels acc w =
    Raise IndexError (after_draw w 200).
Proof.
  intros Hbig. destruct acc as [bi bl]. rewrite read_batch_step_run.
  apply bind_Raise. apply find_folder_index_error.
  rewrite list_getitem_nat.
  apply nth_error_None in Hbig. rewrite Hbig. reflexivity.
Qed.

Lemma read_batch_step_missing (fuel : nat) (images_source : string)
    (wnid_labels : list string) (acc : batch) (wnid : string) (w : world) :
  nth_error wnid_labels (drawn w 200) = Some wnid ->
  resolve (fs w) (os.path.join images_source (os.path.join wnid "images")) = None ->
  read_batch_step fuel images_source wnid_labels acc w = Timeout
            (mk_world (fs w) (snd (rng_randbelow (gen w) 200))
               (repeat (EvExists (os.path.join images_source (os.path.join wnid "images")))
                       fuel ++ log w)).
Proof.
  intros Hwnid Hmiss. destruct acc as [bi bl]. rewrite read_batch_step_run.
  apply bind_Timeout.
  apply (find_folder_missing fuel images_source wnid_labels _ wnid (after_draw w 200)).
  - rewrite list_getitem_nat, Hwnid. reflexivity.
  - exact Hmiss.
Qed.

Lemma read_batch_step_success (fuel : nat) (images_source : string)
    (wnid_labels : list string) (batch_images : list (ndarray Z))
    (batch_labels : list (ndarray float)) (wnid : string)
    (entries : list (string * node)) (im : image) (w : world) :
  let folder := os.path.join images_source (os.path.join wnid "images") in
  let w1 := logged (EvExists folder) (after_draw w 200) in
  nth_error wnid_labels (drawn w 200) = Some wnid ->
  resolve (fs w) folder = Some (Dir true entries) ->
  entries <> [] ->
  resolve (fs w) (os.path.join folder (attempt_name (gen w1) (map fst entries) 0))
    = Some (File (Some im)) ->
  shape (array_of_image (Image.convert_RGB im)) = [64; 64; 3] ->
  read_batch_step (S fuel) images_source wnid_labels (batch_images, batch_labels) w =
    Ret (batch_images ++ [preprocessed (Image.convert_RGB im)],
         batch_labels ++ [unit_vector (drawn w 200)])
        (after_attempt w1 folder (map fst entries)).
Proof.
  intros folder w1 Hwnid Hdir Hne Him Hshape.
  rewrite read_batch_step_run.
  assert (Hget : list_getitem wnid_labels (Z.of_nat (drawn w 200)) = Ok wnid).
  { rewrite list_getitem_nat, Hwnid. reflexivity. }
  rewrite (bind_Ret _ _ _ _ _
             (find_folder_found fuel images_source wnid_labels _ wnid _
                (after_draw w 200) Hget Hdir)).
  fold folder. fold w1.
  assert (Himg : read_image (S fuel) folder w1 =
                 Ret (preprocessed (Image.convert_RGB im))
                     (after_attempt w1 folder (map fst entries))).
  { rewrite (read_image_attempt fuel folder entries w1 Hdir Hne). cbn zeta.
    change (fs w1) with (fs w). rewrite Him.
    apply shape_eqb_eq in Hshape. rewrite Hshape. reflexivity. }
  rewrite (bind_Ret _ _ _ _ _ Himg).
  unfold bind. rewrite one_hot_drawn. reflexivity.
Qed.

Lemma read_batch_step_Ret_inv (fuel : nat) (images_source : string)
    (wnid_labels : list string) (acc acc' : batch) (w w' : world) :
  read_batch_step fuel images_source wnid_labels acc w = Ret acc' w' ->
  exists wnid img,
    nth_error wnid_labels (drawn w 200) = Some wnid /\
    resolve (fs w) (os.path.join images_source (os.path.join wnid "images")) <> None /\
    acc' = (fst acc ++ [img], snd acc ++ [unit_vector (drawn w 200)]) /\
    fs w' = fs w.
Proof.
  destruct acc as [bi bl]. rewrite read_batch_step_run. intros Hret.
  apply bind_Ret_inv in Hret as (folder & w1 & Hfold & Hret).
  apply bind_Ret_inv in Hret as (img & w2 & Himg & Hret).
  apply bind_Ret_inv in Hret as (lbl & w3 & Hlbl & Hret).
  apply find_folder_Ret_inv in Hfold as (wnid & Hget & -> & Hex & ->).
  rewrite list_getitem_nat in Hget.
  destruct (nth_error wnid_labels (drawn w 200)) as [wnid'|] eqn:Hnth;
    [|discriminate Hget].
  injection Hget as ->.
  apply lift_Ret_inv in Hlbl as [Hlbl ->].
  rewrite one_hot_drawn in Hlbl. injection Hlbl as <-.
  injection Hret as <- <-.
  exists wnid, img. repeat split; try reflexivity; try exact Hex.
  apply read_image_fs in Himg. exact Himg.
Qed.

(** *** The whole batch *)

Lemma length_range (n : Z) : List.length (range n) = Z.to_nat n.
Proof. unfold range. rewrite length_map, length_seq. reflexivity. Qed.

Lemma range_pos (n : Z) : (1 <= n)%Z -> exists t, range n = 0%Z :: t.
Proof.
  intros Hn. unfold range.
  destruct (Z.to_nat n) as [|m] eqn:E; [lia|].
  cbn [seq map]. eexists. reflexivity.
Qed.

Lemma read_batch_first_Raise (fuel : nat) (batch_size : Z) (images_source : string)
    (wnid_labels : list string) (e : exn) (w w' : world) :
  (1 <= batch_size)%Z ->
  read_batch_step fuel images_source wnid_labels ([], []) w = Raise e w' ->
  read_batch fuel batch_size images_source wnid_labels w = Raise e w'.
Proof.
  intros Hn Hstep. destruct (range_pos batch_size Hn) as [t Ht].
  unfold read_batch. rewrite Ht. cbn [for_each].
  apply bind_Raise. apply bind_Raise. exact Hstep.
Qed.

Lemma read_batch_first_Timeout (fuel : nat) (batch_size : Z) (images_source : string)
    (wnid_labels : list string) (w w' : world) :
  (1 <= batch_size)%Z ->
  read_batch_step fuel images_source wnid_labels ([], []) w = Timeout w' ->
  read_batch fuel batch_size images_source wnid_labels w = Timeout w'.
Proof.
  intros Hn Hstep. destruct (range_pos batch_size Hn) as [t Ht].
  unfold read_batch. rewrite Ht. cbn [for_each].
  apply bind_Timeout. apply bind_Timeout. exact Hstep.
Qed.

Lemma read_batch_single (fuel : nat) (images_source : string)
    (wnid_labels : list string) (img : ndarray Z) (lbl : ndarray float)
    (w w' : world) :
  read_batch_step fuel images_source wnid_labels ([], []) w = Ret ([img], [lbl]) w' ->
  read_batch fuel 1 images_source wnid_labels w = Ret ([img], [lbl]) w'.
Proof.
  intros Hstep. unfold read_batch. change (range 1) with [0%Z]. cbn [for_each].
  rewrite (bind_Ret _ _ _ _ _ (bind_Ret _ _ _ _ _ Hstep)). reflexivity.
Qed.

Lemma for_each_steps_inv (fuel : nat) (images_source : string)
    (wnid_labels : list string) (l : list Z) :
  forall (acc acc' : batch) (w w' : world),
    for_each l (fun _ => read_batch_step fuel images_source wnid_labels) acc w
      = Ret acc' w' ->
    exists (imgs : list (ndarray Z)) (ks : list nat),
      acc' = (fst acc ++ imgs, snd acc ++ map unit_vector ks) /\
      List.length imgs = List.length l /\
      List.length ks = List.length l /\
      Forall (fun k => k < 200 /\ k < List.length wnid_labels) ks /\
      fs w' = fs w.
Proof.
  induction l as [|x t IH]; intros acc acc' w w' Hret.
  - injection Hret as <- <-. exists [], []. destruct acc as [bi bl].
    cbn [fst snd map]. rewrite !app_nil_r. repeat split. constructor.
  - cbn [for_each] in Hret.
    apply bind_Ret_inv in Hret as (acc1 & w1 & Hstep & Hrest).
    apply read_batch_step_Ret_inv in Hstep as (wnid & img & Hnth & _ & -> & Hfs1).
    apply IH in Hrest as (imgs & ks & -> & Hli & Hlk & Hall & Hfs).
    exists (img :: imgs), (drawn w 200 :: ks). cbn [fst snd map List.length].
    rewrite <- !app_assoc. cbn [app].
    repeat split; try congruence.
    constructor; [|exact Hall]. split.
    + apply drawn_lt. lia.
    + apply nth_error_Some. rewrite Hnth. discriminate.
Qed.

Lemma read_batch_Ret_inv (fuel : nat) (batch_size : Z) (images_source : string)
    (wnid_labels : list string) (imgs : list (ndarray Z))
    (lbls : list (ndarray float)) (w w' : world) :
  read_batch fuel batch_size images_source wnid_labels w = Ret (imgs, lbls) w' ->
  exists ks : list nat,
    lbls = map unit_vector ks /\
    List.length imgs = Z.to_nat batch_size /\
    List.length ks = Z.to_nat batch_size /\
    Forall (fun k => k < 200 /\ k < List.length wnid_labels) ks /\
    (1 <= batch_size)%Z /\
    fs w' = fs w.
Proof.
  unfold read_batch. intros Hret.
  apply bind_Ret_inv in Hret as ([bi bl] & w1 & Hloop & Hret).
  apply bind_Ret_inv in Hret as (s1 & w2 & Hv1 & Hret).
  apply bind_Ret_inv in Hret as (s2 & w3 & Hv2 & Hret).
  apply lift_Ret_inv in Hv1 as [Hv1 ->]. apply lift_Ret_inv in Hv2 as [Hv2 ->].
  injection Hret as <- <- <-.
  apply for_each_steps_inv in Hloop as (imgs & ks & Hacc & Hli & Hlk & Hall & Hfs).
  cbn [fst snd app] in Hacc. injection Hacc as -> ->.
  rewrite length_range in Hli, Hlk.
  exists ks. repeat split; try assumption.
  destruct imgs as [|i0 imgs]; [discriminate Hv1|].
  cbn [List.length] in Hli. lia.
Qed.

End Sampler.

(** ** Example runs *)

Lemma sample_step_run (lg : list event) :
  @read_batch_step scripted nearest_resampler 1 "root" ["a"; "b"; "c"] ([], [])
      (@mk_world scripted three_classes [1] lg) =
    Ret ([@preprocessed nearest_resampler (Image.convert_RGB grey64)], [unit_vector 1])
        (@mk_world scripted three_classes []
           (EvOpen "root/b/images/b_0.JPEG" :: EvListdir "root/b/images"
              :: EvExists "root/b/images" :: lg)).
Proof.
  exact (@read_batch_step_success scripted nearest_resampler 0 "root" ["a"; "b"; "c"]
           [] [] "b" [("b_0.JPEG", File (Some grey64))] grey64
           (@mk_world scripted three_classes [1] lg)
           eq_refl eq_refl ltac:(discriminate) eq_refl eq_refl).
Qed.

Lemma sample_batch_run (lg : list event) :
  @read_batch scripted nearest_resampler 1 1 "root" ["a"; "b"; "c"]
      (@mk_world scripted three_classes [1] lg) =
    Ret ([@preprocessed nearest_resampler (Image.convert_RGB grey64)], [unit_vector 1])
        (@mk_world scripted three_classes []
           (EvOpen "root/b/images/b_0.JPEG" :: EvListdir "root/b/images"
              :: EvExists "root/b/images" :: lg)).
Proof. apply read_batch_single. apply sample_step_run. Qed.

(** ** The batch sampler *)

(** C2.  Whenever [read_batch] returns for a batch size of at least 1,
    the list of images and the list of labels both have [batch_size]
    elements. *)
Theorem read_batch_lengths (RS : RandomSource) (RK : Resampler) (fuel : nat)
    (batch_size : Z) (images_source : string) (wnid_labels : list string)
    (imgs : list (ndarray Z)) (lbls : list (ndarray float)) (w w' : world) :
  (1 <= batch_size)%Z ->
  read_batch fuel batch_size images_source wnid_labels w = Ret (imgs, lbls) w' ->
  Z.of_nat (List.length imgs) = batch_size /\
  Z.of_nat (List.length lbls) = batch_size.
Proof.
  intros Hn Hret.
  apply read_batch_Ret_inv in Hret as (ks & -> & Hli & Hlk & _ & _ & _).
  rewrite length_map. lia.
Qed.

Lemma read_batch_lengths_witness :
  (1 <= 1)%Z /\
  exists imgs lbls w',
    @read_batch scripted nearest_resampler 1 1 "root" ["a"; "b"; "c"]
        (boot three_classes [1]) = Ret (imgs, lbls) w' /\
    Z.of_nat (List.length imgs) = 1%Z /\
    Z.of_nat (List.length lbls) = 1%Z.
Proof.
  split; [lia|].
  eexists _, _, _. split; [exact (sample_batch_run [])|].
  apply (read_batch_lengths scripted nearest_resampler 1 1 "root" ["a"; "b"; "c"]
           _ _ (boot three_classes [1]) _ ltac:(lia) (sample_batch_run [])).
Defined.

(** C1 (as the code has it).  The class index of each pass is the
    outcome of [random.randint(0, 199)]: the value of [_randbelow(200)]
    itself, so every index of [0, 199] comes from exactly one of the 200
    outcomes of the draw, whatever the number of class identifiers.  A
    pass that returns has drawn a position of [wnid_labels] and appends
    the one-hot vector of that index; a pass whose draw is not a
    position of [wnid_labels] raises [IndexError].  Hence, when
    [read_batch] returns, its labels are the one-hot vectors of
    [batch_size] indices, each below 200 and below the number of
    identifiers: with three identifiers, hot at 0, 1 or 2. *)
Theorem read_batch_class_indices (RS : RandomSource) (RK : Resampler) (fuel : nat)
    (images_source : string) (wnid_labels : list string) :
  (forall w : world,
     random.randint 0 199 w = Ret (Z.of_nat (drawn w 200)) (after_draw w 200) /\
     drawn w 200 < 200) /\
  (forall i : Z, (0 <= i <= 199)%Z ->
     exists k, (k < 200 /\ Z.of_nat k = i) /\
               forall k', k' < 200 -> Z.of_nat k' = i -> k' = k) /\
  (forall (acc acc' : batch) (w w' : world),
     read_batch_step fuel images_source wnid_labels acc w = Ret acc' w' ->
     drawn w 200 < List.length wnid_labels /\
     snd acc' = snd acc ++ [unit_vector (drawn w 200)]) /\
  (forall (acc : batch) (w : world),
     List.length wnid_labels <= drawn w 200 ->
     read_batch_step (S fuel) images_source wnid_labels acc w =
       Raise IndexError (after_draw w 200)) /\
  (forall (batch_size : Z) (imgs : list (ndarray Z)) (lbls : list (ndarray float))
          (w w' : world),
     read_batch fuel batch_size images_source wnid_labels w = Ret (imgs, lbls) w' ->
     exists ks : list nat,
       lbls = map unit_vector ks /\
       List.length ks = Z.to_nat batch_size /\
       Forall (fun k => k < 200 /\ k < List.length wnid_labels) ks /\
       (List.length wnid_labels = 3 -> Forall (fun k => k = 0 \/ k = 1 \/ k = 2) ks)).
Proof.
  split; [|split; [|split; [|split]]].
  - intros w. split; [apply randint_run|apply drawn_lt; lia].
  - intros i Hi. exists (Z.to_nat i). split; [split; lia|]. intros k' _ <-. lia.
  - intros acc acc' w w' Hret.
    apply read_batch_step_Ret_inv in Hret as (wnid & img & Hnth & _ & -> & _).
    split; [|reflexivity].
    apply nth_error_Some. rewrite Hnth. discriminate.
  - intros acc w Hbig. apply read_batch_step_index_error. exact Hbig.
  - intros batch_size imgs lbls w w' Hret.
    apply read_batch_Ret_inv in Hret as (ks & -> & _ & Hlk & Hall & _ & _).
    exists ks. repeat split; try assumption.
    intros H3. rewrite H3 in Hall.
    eapply Forall_impl; [|exact Hall]. cbn beta. intros k [_ Hk]. lia.
Qed.

Lemma read_batch_class_indices_witness :
  exists imgs w',
    @read_batch scripted nearest_resampler 1 1 "root" ["a"; "b"; "c"]
        (boot three_classes [1]) = Ret (imgs, [unit_vector 1]) w' /\
    exists ks : list nat,
      [unit_vector 1] = map unit_vector ks /\
      List.length ks = Z.to_nat 1 /\
      Forall (fun k => k < 200 /\ k < 3) ks /\
      (3 = 3 -> Forall (fun k => k = 0 \/ k = 1 \/ k = 2) ks).
Proof.
  eexists _, _. split; [exact (sample_batch_run [])|].
  exact (proj2 (proj2 (proj2 (proj2
           (read_batch_class_indices scripted nearest_resampler 1 "root" ["a"; "b"; "c"]))))
           1%Z _ _ _ _ (sample_batch_run [])).
Defined.

(** C1, refuted as stated: with the three identifiers [a], [b], [c] and
    a generator whose first draw is 150, the class index is 150, outside
    [0, 2], and [read_batch(3, root, [a, b, c])] raises [IndexError]
    instead of returning three labels. *)
Lemma read_batch_three_classes_raises :
  @random.randint scripted 0 199 (boot three_classes [150]) =
    Ret 150%Z (boot three_classes []) /\
  @read_batch scripted nearest_resampler 3 3 "root" ["a"; "b"; "c"]
      (boot three_classes [150]) = Raise IndexError (boot three_classes []).
Proof. split; reflexivity. Qed.

(** C10, refuted as stated: [read_batch] with [batch_size = 0] raises
    [ValueError] instead of returning two empty lists. *)
Lemma read_batch_zero_raises :
  @read_batch scripted nearest_resampler 1 0 "root" ["a"; "b"; "c"]
      (boot three_classes [1]) = Raise ValueError (boot three_classes [1]) /\
  forall w',
    @read_batch scripted nearest_resampler 1 0 "root" ["a"; "b"; "c"]
        (boot three_classes [1]) <> Ret ([], []) w'.
Proof. split; [reflexivity|discriminate]. Qed.

(** ** Outcomes of single passes of the batch loop *)

Section Passes.

Context {RS : RandomSource} {RK : Resampler}.

Lemma for_each_app {X S} (l1 l2 : list X) (body : X -> S -> M S) (acc : S) (w : world) :
  for_each (l1 ++ l2) body acc w = bind (for_each l1 body acc) (for_each l2 body) w.
Proof.
  revert acc w. induction l1 as [|x t IH]; intros acc w; [reflexivity|].
  cbn [app for_each]. unfold bind.
  destruct (body x acc w) as [acc1 w1|e w1|w1]; try reflexivity.
  rewrite IH. reflexivity.
Qed.

Lemma read_batch_pass_Raise (fuel : nat) (batch_size : Z) (images_source : string)
    (wnid_labels : list string) (l1 l2 : list Z) (x : Z) (acc1 : batch)
    (e : exn) (w w1 w2 : world) :
  range batch_size = l1 ++ x :: l2 ->
  for_each l1 (fun _ => read_batch_step fuel images_source wnid_labels) ([], []) w
    = Ret acc1 w1 ->
  read_batch_step fuel images_source wnid_labels acc1 w1 = Raise e w2 ->
  read_batch fuel batch_size images_source wnid_labels w = Raise e w2.
Proof.
  intros Hr Hpre Hstep. unfold read_batch. rewrite Hr.
  apply bind_Raise. rewrite for_each_app.
  rewrite (bind_Ret _ _ _ _ _ Hpre). cbn [for_each].
  apply bind_Raise. exact Hstep.
Qed.

Lemma read_batch_pass_Timeout (fuel : nat) (batch_size : Z) (images_source : string)
    (wnid_labels : list string) (l1 l2 : list Z) (x : Z) (acc1 : batch)
    (w w1 w2 : world) :
  range batch_size = l1 ++ x :: l2 ->
  for_each l1 (fun _ => read_batch_step fuel images_source wnid_labels) ([], []) w
    = Ret acc1 w1 ->
  read_batch_step fuel images_source wnid_labels acc1 w1 = Timeout w2 ->
  read_batch fuel batch_size images_source wnid_labels w = Timeout w2.
Proof.
  intros Hr Hpre Hstep. unfold read_batch. rewrite Hr.
  apply bind_Timeout. rewrite for_each_app.
  rewrite (bind_Ret _ _ _ _ _ Hpre). cbn [for_each].
  apply bind_Timeout. exact Hstep.
Qed.

End Passes.

(** C3 (as the code has it).  Take any pass of the [for] loop of
    [read_batch], reached after the passes before it have returned.  If
    the [images] folder of the class drawn in that pass does not exist,
    then whatever the iteration budget, the call neither returns nor
    raises: it spends the whole budget, and all it does meanwhile is one
    [os.path.exists] call per retry, without pause or limit.  An error
    raised in the pass, on the other hand, is not caught: it is the
    outcome of [read_batch]. *)
Theorem read_batch_missing_folder (RS : RandomSource) (RK : Resampler) (fuel : nat)
    (batch_size : Z) (images_source : string) (wnid_labels : list string)
    (l1 l2 : list Z) (x : Z) (acc1 : batch) (w w1 : world) :
  range batch_size = l1 ++ x :: l2 ->
  for_each l1 (fun _ => read_batch_step fuel images_source wnid_labels) ([], []) w
    = Ret acc1 w1 ->
  (forall wnid : string,
     nth_error wnid_labels (drawn w1 200) = Some wnid ->
     resolve (fs w1) (os.path.join images_source (os.path.join wnid "images")) = None ->
     exists w2,
       read_batch fuel batch_size images_source wnid_labels w = Timeout w2 /\
       log w2 =
         repeat (EvExists (os.path.join images_source (os.path.join wnid "images"))) fuel
           ++ log w1) /\
  (forall (e : exn) (w2 : world),
     read_batch_step fuel images_source wnid_labels acc1 w1 = Raise e w2 ->
     read_batch fuel batch_size images_source wnid_labels w = Raise e w2).
Proof.
  intros Hr Hpre. split.
  - intros wnid Hnth Hmiss. eexists. split.
    + eapply read_batch_pass_Timeout; [exact Hr|exact Hpre|].
      apply (read_batch_step_missing fuel images_source wnid_labels acc1 wnid w1 Hnth Hmiss).
    + reflexivity.
  - intros e w2 Hstep.
    eapply read_batch_pass_Raise; [exact Hr|exact Hpre|exact Hstep].
Qed.

Lemma read_batch_missing_folder_witness :
  range 1 = [] ++ 0%Z :: [] /\
  @for_each scripted Z batch [] (fun _ => read_batch_step 7 "root" ["a"; "b"; "c"; "d"])
      ([], []) (boot damaged [0]) = Ret ([], []) (boot damaged [0]) /\
  exists w2,
    @read_batch scripted nearest_resampler 7 1 "root" ["a"; "b"; "c"; "d"]
        (boot damaged [0]) = Timeout w2 /\
    log w2 = repeat (EvExists "root/a/images") 7.
Proof.
  split; [reflexivity|]. split; [reflexivity|].
  exact (proj1 (read_batch_missing_folder scripted nearest_resampler 7 1 "root"
                  ["a"; "b"; "c"; "d"] [] [] 0%Z ([], []) (boot damaged [0])
                  (boot damaged [0]) eq_refl eq_refl)
           "a" eq_refl eq_refl).
Defined.

(** C3, refuted as stated.  In the damaged data set the folder of class
    [b] is empty: with a first draw of 1, [read_batch] raises
    [IndexError], an error that does reach the caller.  Class [a] has no
    [images] folder: with draws 0, 2, 1 the call spends its budget on
    [root/a/images] and never takes the second draw, which would have
    selected class [c]. *)
Lemma read_batch_error_and_busy_loop :
  @read_batch scripted nearest_resampler 7 1 "root" ["a"; "b"; "c"; "d"]
      (boot damaged [1]) =
    Raise IndexError
      (@mk_world scripted damaged []
         [EvListdir "root/b/images"; EvExists "root/b/images"]) /\
  @read_batch scripted nearest_resampler 7 1 "root" ["a"; "b"; "c"; "d"]
      (boot damaged [0; 2; 1]) = Timeout
    (@mk_world scripted damaged [2; 1] (repeat (EvExists "root/a/images") 7)).
Proof. split; reflexivity. Qed.

(** ** The image loader *)

Lemma three_band_conforming (root : node) (folder name : string) :
  three_band root folder name = true ->
  loadable root folder name = true /\
  conforming root folder name = raw_conforming root folder name.
Proof.
  unfold three_band, loadable, conforming, raw_conforming.
  destruct (resolve root (os.path.join folder name)) as [[[[g|c|c]|]|r sub]|];
    try discriminate.
  intros _. split; reflexivity.
Qed.

(** C4 (as the code has it, for files stored as three-band RGB images).
    On a readable class folder with listing [names]:
    - the file of each pass is [names[k]] for [k] the outcome of
      [_randbelow(len(names))], one outcome per position of the listing;
    - on an empty listing the call does not loop: [random.choice] raises
      [IndexError];
    - an array is returned for the first draw that is accepted, and it is
      that image preprocessed; if the accepted file is an RGB image its
      raw shape is (64, 64, 3), and the RGB images drawn before it had
      another raw shape (they were dropped without a report);
    - if every entry is an RGB image of a raw shape other than
      (64, 64, 3), the loop outlasts every iteration budget;
    - if every entry is an RGB image, the call returns exactly when some
      draw selects one of raw shape (64, 64, 3).
    Nothing is said here about files stored with another number of bands. *)
Theorem read_image_selection_loop (RS : RandomSource) (RK : Resampler)
    (folder : string) (entries : list (string * node)) (w : world) :
  resolve (fs w) folder = Some (Dir true entries) ->
  let names := map fst entries in
  let w1 := logged (EvListdir folder) w in
  (entries <> [] ->
     random.choice names w1 =
       Ret (nth (drawn w1 (List.length names)) names EmptyString)
           (after_draw w1 (List.length names)) /\
     drawn w1 (List.length names) < List.length names) /\
  (entries = [] ->
     forall fuel, read_image (S fuel) folder w = Raise IndexError w1) /\
  (forall fuel arr w',
     read_image fuel folder w = Ret arr w' ->
     exists j im,
       resolve (fs w) (os.path.join folder (attempt_name (gen w) names j))
         = Some (File (Some im)) /\
       preprocess (Image.convert_RGB im) = Ok arr /\
       (three_band (fs w) folder (attempt_name (gen w) names j) = true ->
        raw_shape im = [64; 64; 3]) /\
       forall i, i < j ->
         three_band (fs w) folder (attempt_name (gen w) names i) = true ->
         raw_conforming (fs w) folder (attempt_name (gen w) names i) = false) /\
  (entries <> [] ->
     (forall name, In name names ->
        three_band (fs w) folder name = true /\
        raw_conforming (fs w) folder name = false) ->
     forall fuel, exists w', read_image fuel folder w = Timeout w') /\
  (entries <> [] ->
     (forall name, In name names -> three_band (fs w) folder name = true) ->
     ((exists fuel arr w', read_image fuel folder w = Ret arr w') <->
      (exists j, raw_conforming (fs w) folder (attempt_name (gen w) names j) = true))).
Proof.
  intros Hdir names w1. subst names w1. split; [|split; [|split; [|split]]].
  - intros Hne.
    assert (Hnames : map fst entries <> []).
    { destruct entries; [contradiction|discriminate]. }
    split; [apply choice_run; exact Hnames|].
    apply drawn_lt. destruct (map fst entries); [contradiction|cbn; lia].
  - intros -> fuel. apply read_image_empty. exact Hdir.
  - intros fuel arr w' Hret.
    destruct (read_image_Ret_inv folder entries fuel w w' arr Hdir Hret)
      as (j & im & _ & Him & Hshape & -> & Hmin & _).
    exists j, im.
    split; [exact Him|]. split; [apply preprocess_eq|]. split.
    + intros Hband.
      destruct (three_band_conforming _ _ _ Hband) as [_ Hsame].
      unfold conforming, raw_conforming in Hsame. rewrite Him in Hsame.
      apply shape_eqb_eq. rewrite <- Hsame. apply shape_eqb_eq. exact Hshape.
    + intros i Hi Hband.
      destruct (three_band_conforming _ _ _ Hband) as [_ Hsame].
      rewrite <- Hsame. apply Hmin. exact Hi.
  - intros Hne Hall fuel. apply (read_image_never folder entries fuel Hne w Hdir).
    intros name Hin. destruct (Hall name Hin) as [Hband Hraw].
    destruct (three_band_conforming _ _ _ Hband) as [Hload Hsame].
    split; [exact Hload|]. rewrite Hsame. exact Hraw.
  - intros Hne Hall.
    assert (Hnames : map fst entries <> []).
    { destruct entries; [contradiction|discriminate]. }
    assert (Hload : forall name, In name (map fst entries) ->
                      loadable (fs w) folder name = true).
    { intros name Hin. apply three_band_conforming, Hall, Hin. }
    assert (Hsame : forall j,
              conforming (fs w) folder (attempt_name (gen w) (map fst entries) j) =
              raw_conforming (fs w) folder (attempt_name (gen w) (map fst entries) j)).
    { intros j. apply three_band_conforming, Hall, attempt_name_In, Hnames. }
    split.
    + intros (fuel & arr & w' & Hret).
      destruct (read_image_Ret_inv folder entries fuel w w' arr Hdir Hret)
        as (j & im & _ & Him & Hshape & _).
      exists j. rewrite <- Hsame, (conforming_file _ _ _ _ Him).
      apply shape_eqb_eq. exact Hshape.
    + intros [j Hj]. exists (S j). rewrite <- Hsame in Hj.
      apply (read_image_reaches folder entries j Hne w Hdir Hload Hj).
Qed.

Lemma read_image_selection_loop_witness :
  resolve damaged "root/c/images" =
    Some (Dir true [("c_0.JPEG", File (Some thumb32)); ("c_1.JPEG", File (Some grey64))]) /\
  exists fuel arr w',
    @read_image scripted nearest_resampler fuel "root/c/images" (boot damaged [0; 1])
      = Ret arr w'.
Proof.
  split; [reflexivity|].
  apply (proj2 (proj2 (proj2 (proj2
           (read_image_selection_loop scripted nearest_resampler "root/c/images"
              [("c_0.JPEG", File (Some thumb32)); ("c_1.JPEG", File (Some grey64))]
              (boot damaged [0; 1]) eq_refl))))).
  - discriminate.
  - intros name [<-|[<-|[]]]; reflexivity.
  - exists 1. reflexivity.
Defined.

Lemma scripted_exhausted (n j : nat) : @gen_after scripted [] n j = [].
Proof. induction j as [|j IH]; [reflexivity|exact IH]. Qed.

(** C4, refuted as stated.  The [images] folder of class [b] is empty,
    so it holds no conforming image, yet the call ends at once, with
    [IndexError].  The folder of class [c] holds a conforming image,
    [c_1.JPEG], an RGB file of raw shape (64, 64, 3), yet with a
    generator that draws 0 every time the loop outlasts every budget. *)
Lemma read_image_empty_folder_and_unlucky_draws :
  @read_image scripted nearest_resampler 1 "root/b/images" (boot damaged [0]) =
    Raise IndexError (@mk_world scripted damaged [0] [EvListdir "root/b/images"]) /\
  raw_conforming damaged "root/c/images" "c_1.JPEG" = true /\
  forall fuel, exists w',
    @read_image scripted nearest_resampler fuel "root/c/images" (boot damaged [])
      = Timeout w'.
Proof.
  split; [reflexivity|]. split; [reflexivity|].
  intros fuel.
  apply (@read_image_misses scripted nearest_resampler "root/c/images"
           [("c_0.JPEG", File (Some thumb32)); ("c_1.JPEG", File (Some grey64))]
           fuel ltac:(discriminate) (boot damaged []) eq_refl).
  intros j. unfold attempt_name, nth_draw. cbn [gen boot].
  rewrite scripted_exhausted. split; reflexivity.
Qed.

(** The shape test follows [convert('RGB')], so it compares width and
    height only: a greyscale file of 64 by 64 pixels is accepted, the
    comment [# ignore grayscale images] notwithstanding. *)
Remark read_image_accepts_greyscale :
  exists w',
    @read_image scripted nearest_resampler 1 "root/g/images" (boot greyscale_class [0]) =
      Ret (@preprocessed nearest_resampler (Image.convert_RGB grey64_L)) w'.
Proof.
  eexists.
  rewrite (@read_image_attempt scripted nearest_resampler 0 "root/g/images"
             [("g_0.JPEG", File (Some grey64_L))] (boot greyscale_class [0])
             eq_refl ltac:(discriminate)).
  reflexivity.
Qed.

(** ** Determinism under a seed *)

Section Determinism.

Context {RS : RandomSource} {RK : Resampler}.

Lemma read_image_Ret_dir (fuel : nat) (folder : string) (w w' : world) (arr : ndarray Z) :
  read_image fuel folder w = Ret arr w' ->
  exists entries, resolve (fs w) folder = Some (Dir true entries).
Proof.
  destruct fuel as [|fuel]; [discriminate|]. rewrite read_image_S. intros Hret.
  apply bind_Ret_inv in Hret as (names & w1 & Hlist & _).
  rewrite listdir_run in Hlist. cbn zeta in Hlist.
  destruct (resolve (fs w) folder) as [[c|[|] entries]|]; try discriminate Hlist.
  exists entries. reflexivity.
Qed.

(** Two runs of [read_image] that start from the same tree and the same
    generator state return the same array and leave the same generator
    state, whatever was logged before and whatever the budgets. *)
Lemma read_image_det (fuel1 fuel2 : nat) (folder : string) (w v w1 v1 : world)
    (a b : ndarray Z) :
  fs w = fs v -> gen w = gen v ->
  read_image fuel1 folder w = Ret a w1 ->
  read_image fuel2 folder v = Ret b v1 ->
  a = b /\ gen w1 = gen v1.
Proof.
  intros Hfs Hgen Hw Hv.
  destruct (read_image_Ret_dir _ _ _ _ _ Hw) as [entries Hdir].
  assert (Hdir' : resolve (fs v) folder = Some (Dir true entries))
    by (rewrite <- Hfs; exact Hdir).
  destruct (read_image_Ret_inv folder entries fuel1 w w1 a Hdir Hw)
    as (j1 & im1 & _ & Him1 & Hs1 & -> & Hmin1 & Hg1).
  destruct (read_image_Ret_inv folder entries fuel2 v v1 b Hdir' Hv)
    as (j2 & im2 & _ & Him2 & Hs2 & -> & Hmin2 & Hg2).
  rewrite <- Hfs, <- Hgen in Him2, Hmin2. rewrite <- Hgen in Hg2.
  assert (Hj : j1 = j2).
  { destruct (Nat.lt_trichotomy j1 j2) as [Hlt|[Heq|Hgt]]; [|exact Heq|].
    - specialize (Hmin2 j1 Hlt).
      rewrite (conforming_file _ _ _ _ Him1) in Hmin2.
      apply shape_eqb_eq in Hs1. congruence.
    - specialize (Hmin1 j2 Hgt).
      rewrite (conforming_file _ _ _ _ Him2) in Hmin1.
      apply shape_eqb_eq in Hs2. congruence. }
  subst j2. rewrite Him1 in Him2. injection Him2 as <-.
  split; [reflexivity|congruence].
Qed.

Lemma read_batch_step_det (fuel1 fuel2 : nat) (images_source : string)
    (wnid_labels : list string) (acc acc1 acc2 : batch) (w v w1 v1 : world) :
  fs w = fs v -> gen w = gen v ->
  read_batch_step fuel1 images_source wnid_labels acc w = Ret acc1 w1 ->
  read_batch_step fuel2 images_source wnid_labels acc v = Ret acc2 v1 ->
  acc1 = acc2 /\ fs w1 = fs v1 /\ gen w1 = gen v1.
Proof.
  intros Hfs Hgen Hw Hv. destruct acc as [bi bl].
  assert (Hd : drawn v 200 = drawn w 200) by (unfold drawn; rewrite Hgen; reflexivity).
  rewrite read_batch_step_run in Hw, Hv. rewrite Hd in Hv.
  apply bind_Ret_inv in Hw as (folder & wa & Hfold & Hw).
  apply bind_Ret_inv in Hw as (img & wb & Himg & Hw).
  apply bind_Ret_inv in Hw as (lbl & wc & Hlbl & Hw).
  apply bind_Ret_inv in Hv as (folder' & va & Hfold' & Hv).
  apply bind_Ret_inv in Hv as (img' & vb & Himg' & Hv).
  apply bind_Ret_inv in Hv as (lbl' & vc & Hlbl' & Hv).
  apply find_folder_Ret_inv in Hfold as (wnid & Hget & -> & _ & ->).
  apply find_folder_Ret_inv in Hfold' as (wnid' & Hget' & -> & _ & ->).
  rewrite Hget in Hget'. injection Hget' as <-.
  apply lift_Ret_inv in Hlbl as [Hlbl ->]. apply lift_Ret_inv in Hlbl' as [Hlbl' ->].
  rewrite Hlbl in Hlbl'. injection Hlbl' as <-.
  injection Hw as <- <-. injection Hv as <- <-.
  pose proof (read_image_fs _ _ _ _ _ Himg) as Hfw.
  pose proof (read_image_fs _ _ _ _ _ Himg') as Hfv.
  cbn [fs logged after_draw] in Hfw, Hfv.
  assert (Hg0 : gen (logged (EvExists (os.path.join images_source (os.path.join wnid "images")))
                       (after_draw w 200)) =
                gen (logged (EvExists (os.path.join images_source (os.path.join wnid "images")))
                       (after_draw v 200))).
  { cbn [gen logged after_draw]. rewrite Hgen. reflexivity. }
  pose proof (fun H1 H2 => read_image_det _ _ _ _ _ _ _ _ _ H1 H2 Himg Himg') as Hdet.
  destruct (Hdet Hfs Hg0) as [<- Hg].
  repeat split; [congruence|exact Hg].
Qed.

Lemma for_each_steps_det (fuel1 fuel2 : nat) (images_source : string)
    (wnid_labels : list string) (l : list Z) :
  forall (acc acc1 acc2 : batch) (w v w1 v1 : world),
    fs w = fs v -> gen w = gen v ->
    for_each l (fun _ => read_batch_step fuel1 images_source wnid_labels) acc w
      = Ret acc1 w1 ->
    for_each l (fun _ => read_batch_step fuel2 images_source wnid_labels) acc v
      = Ret acc2 v1 ->
    acc1 = acc2 /\ fs w1 = fs v1 /\ gen w1 = gen v1.
Proof.
  induction l as [|x t IH]; intros acc acc1 acc2 w v w1 v1 Hfs Hgen Hw Hv.
  - injection Hw as <- <-. injection Hv as <- <-. repeat split; assumption.
  - cbn [for_each] in Hw, Hv.
    apply bind_Ret_inv in Hw as (a1 & wa & Hsw & Hw).
    apply bind_Ret_inv in Hv as (a2 & va & Hsv & Hv).
    destruct (read_batch_step_det _ _ _ _ _ _ _ _ _ _ _ Hfs Hgen Hsw Hsv)
      as (<- & Hfs' & Hgen').
    exact (IH _ _ _ _ _ _ _ Hfs' Hgen' Hw Hv).
Qed.

Lemma read_batch_det (fuel1 fuel2 : nat) (batch_size : Z) (images_source : string)
    (wnid_labels : list string) (out1 out2 : batch) (w v w1 v1 : world) :
  fs w = fs v -> gen w = gen v ->
  read_batch fuel1 batch_size images_source wnid_labels w = Ret out1 w1 ->
  read_batch fuel2 batch_size images_source wnid_labels v = Ret out2 v1 ->
  out1 = out2 /\ fs w1 = fs v1 /\ gen w1 = gen v1.
Proof.
  unfold read_batch. intros Hfs Hgen Hw Hv.
  apply bind_Ret_inv in Hw as ([bi bl] & wa & Hlw & Hw).
  apply bind_Ret_inv in Hv as ([bi' bl'] & va & Hlv & Hv).
  apply bind_Ret_inv in Hw as (s1 & wb & Hw1 & Hw).
  apply bind_Ret_inv in Hw as (s2 & wc & Hw2 & Hw).
  apply bind_Ret_inv in Hv as (t1 & vb & Hv1 & Hv).
  apply bind_Ret_inv in Hv as (t2 & vc & Hv2 & Hv).
  apply lift_Ret_inv in Hw1 as [_ ->]. apply lift_Ret_inv in Hw2 as [_ ->].
  apply lift_Ret_inv in Hv1 as [_ ->]. apply lift_Ret_inv in Hv2 as [_ ->].
  injection Hw as <- <-. injection Hv as <- <-.
  exact (for_each_steps_det _ _ _ _ _ _ _ _ _ _ _ _ Hfs Hgen Hlw Hlv).
Qed.

(** A run that returns can be replayed in any world with the same tree
    and the same generator state: it returns the same value there. *)
Lemma read_image_replay (fuel : nat) (folder : string) :
  forall (w v w1 : world) (a : ndarray Z),
    fs w = fs v -> gen w = gen v ->
    read_image fuel folder w = Ret a w1 ->
    exists v1, read_image fuel folder v = Ret a v1 /\ fs w1 = fs v1 /\ gen w1 = gen v1.
Proof.
  induction fuel as [|fuel IH]; intros w v w1 a Hfs Hgen Hret; [discriminate Hret|].
  destruct (read_image_Ret_dir _ _ _ _ _ Hret) as [entries Hdir].
  destruct entries as [|e0 rest] eqn:Hent.
  { rewrite (read_image_empty _ _ _ Hdir) in Hret. discriminate Hret. }
  rewrite <- Hent in *.
  assert (Hne : entries <> []) by (rewrite Hent; discriminate).
  assert (Hdir' : resolve (fs v) folder = Some (Dir true entries))
    by (rewrite <- Hfs; exact Hdir).
  rewrite (read_image_attempt fuel folder entries w Hdir Hne) in Hret.
  rewrite (read_image_attempt fuel folder entries v Hdir' Hne).
  cbn zeta in Hret |- *. rewrite <- Hfs, <- Hgen.
  assert (Hfs' : fs (after_attempt w folder (map fst entries)) =
                 fs (after_attempt v folder (map fst entries))) by exact Hfs.
  assert (Hgen' : gen (after_attempt w folder (map fst entries)) =
                  gen (after_attempt v folder (map fst entries))).
  { unfold after_attempt. cbn [gen]. rewrite Hgen. reflexivity. }
  destruct (resolve (fs w) (os.path.join folder (attempt_name (gen w) (map fst entries) 0)))
    as [[[im|]|r sub]|]; try discriminate Hret.
  destruct (shape_eqb (shape (array_of_image (Image.convert_RGB im))) [64; 64; 3]).
  - injection Hret as <- <-. eexists. split; [reflexivity|]. split; assumption.
  - exact (IH _ _ _ _ Hfs' Hgen' Hret).
Qed.

Lemma read_batch_step_replay (fuel : nat) (images_source : string)
    (wnid_labels : list string) (acc acc1 : batch) (w v w1 : world) :
  fs w = fs v -> gen w = gen v ->
  read_batch_step fuel images_source wnid_labels acc w = Ret acc1 w1 ->
  exists v1,
    read_batch_step fuel images_source wnid_labels acc v = Ret acc1 v1 /\
    fs w1 = fs v1 /\ gen w1 = gen v1.
Proof.
  intros Hfs Hgen Hw. destruct acc as [bi bl].
  assert (Hd : drawn v 200 = drawn w 200) by (unfold drawn; rewrite Hgen; reflexivity).
  rewrite read_batch_step_run in Hw |- *. rewrite Hd.
  apply bind_Ret_inv in Hw as (folder & wa & Hfold & Hw).
  apply bind_Ret_inv in Hw as (img & wb & Himg & Hw).
  apply bind_Ret_inv in Hw as (lbl & wc & Hlbl & Hw).
  destruct fuel as [|fuel]; [discriminate Hfold|].
  apply find_folder_Ret_inv in Hfold as (wnid & Hget & -> & Hex & ->).
  apply lift_Ret_inv in Hlbl as [Hlbl ->]. injection Hw as <- <-.
  destruct (resolve (fs w) (os.path.join images_source (os.path.join wnid "images")))
    as [n|] eqn:Hn; [|contradiction Hex; reflexivity].
  assert (Hn' : resolve (fs (after_draw v 200))
                  (os.path.join images_source (os.path.join wnid "images")) = Some n).
  { cbn [fs after_draw]. rewrite <- Hfs. exact Hn. }
  rewrite (bind_Ret _ _ _ _ _
             (find_folder_found fuel images_source wnid_labels _ wnid n
                (after_draw v 200) Hget Hn')).
  assert (Hg0 : gen (logged (EvExists (os.path.join images_source (os.path.join wnid "images")))
                       (after_draw w 200)) =
                gen (logged (EvExists (os.path.join images_source (os.path.join wnid "images")))
                       (after_draw v 200))).
  { cbn [gen logged after_draw]. rewrite Hgen. reflexivity. }
  destruct (read_image_replay _ _
              (logged (EvExists (os.path.join images_source (os.path.join wnid "images")))
                 (after_draw w 200))
              (logged (EvExists (os.path.join images_source (os.path.join wnid "images")))
                 (after_draw v 200))
              _ _ Hfs Hg0 Himg) as (vb & Himg' & Hfb & Hgb).
  rewrite (bind_Ret _ _ _ _ _ Himg').
  unfold bind. rewrite Hlbl. cbn [lift ret].
  eexists. split; [reflexivity|]. split; assumption.
Qed.

Lemma for_each_steps_replay (fuel : nat) (images_source : string)
    (wnid_labels : list string) (l : list Z) :
  forall (acc acc1 : batch) (w v w1 : world),
    fs w = fs v -> gen w = gen v ->
    for_each l (fun _ => read_batch_step fuel images_source wnid_labels) acc w
      = Ret acc1 w1 ->
    exists v1,
      for_each l (fun _ => read_batch_step fuel images_source wnid_labels) acc v
        = Ret acc1 v1 /\
      fs w1 = fs v1 /\ gen w1 = gen v1.
Proof.
  induction l as [|x t IH]; intros acc acc1 w v w1 Hfs Hgen Hw.
  - injection Hw as <- <-. exists v. repeat split; assumption.
  - cbn [for_each] in Hw |- *.
    apply bind_Ret_inv in Hw as (a1 & wa & Hsw & Hw).
    destruct (read_batch_step_replay _ _ _ _ _ _ _ _ Hfs Hgen Hsw)
      as (va & Hsv & Hfs' & Hgen').
    rewrite (bind_Ret _ _ _ _ _ Hsv).
    exact (IH _ _ _ _ _ Hfs' Hgen' Hw).
Qed.

Lemma read_batch_replay (fuel : nat) (batch_size : Z) (images_source : string)
    (wnid_labels : list string) (out : batch) (w v w1 : world) :
  fs w = fs v -> gen w = gen v ->
  read_batch fuel batch_size images_source wnid_labels w = Ret out w1 ->
  exists v1,
    read_batch fuel batch_size images_source wnid_labels v = Ret out v1 /\
    fs w1 = fs v1 /\ gen w1 = gen v1.
Proof.
  unfold read_batch. intros Hfs Hgen Hw.
  apply bind_Ret_inv in Hw as ([bi bl] & wa & Hlw & Hw).
  destruct (for_each_steps_replay _ _ _ _ _ _ _ _ _ Hfs Hgen Hlw)
    as (va & Hlv & Hfs' & Hgen').
  rewrite (bind_Ret _ _ _ _ _ Hlv).
  apply bind_Ret_inv in Hw as (s1 & wb & Hw1 & Hw).
  apply bind_Ret_inv in Hw as (s2 & wc & Hw2 & Hw).
  apply lift_Ret_inv in Hw1 as [Hw1 ->]. apply lift_Ret_inv in Hw2 as [Hw2 ->].
  injection Hw as <- <-.
  unfold bind. rewrite Hw1. cbn [lift ret]. rewrite Hw2. cbn [lift ret].
  eexists. split; [reflexivity|]. split; assumption.
Qed.

End Determinism.

Lemma sample_seeded_run (s : list nat) (lg : list event) :
  @seeded_read_batch scripted nearest_resampler 1 1 1 "root" ["a"; "b"; "c"]
      (@mk_world scripted three_classes s lg) =
    Ret ([@preprocessed nearest_resampler (Image.convert_RGB grey64)], [unit_vector 1])
        (@mk_world scripted three_classes []
           (EvOpen "root/b/images/b_0.JPEG" :: EvListdir "root/b/images"
              :: EvExists "root/b/images" :: lg)).
Proof. exact (sample_batch_run lg). Qed.

(** C5.  Seed the generator and call [read_batch]; do it again with the
    same seed, the same batch size, the same root directory contents and
    the same class identifiers.  If the first call returns a batch, so
    does the second, and it is the same batch, image by image and label
    by label.  This holds for two runs started in any two worlds with
    the same directory tree, whatever they logged before, and for two
    consecutive runs, since [read_batch] leaves the tree as it found it;
    and two runs that return agree even when their iteration budgets
    differ. *)
Theorem read_batch_seeded_deterministic (RS : RandomSource) (RK : Resampler)
    (a : Z) (batch_size : Z) (images_source : string) (wnid_labels : list string) :
  (forall (fuel : nat) (wA wB wA' : world) (out : batch),
     fs wA = fs wB ->
     seeded_read_batch a fuel batch_size images_source wnid_labels wA = Ret out wA' ->
     exists wB',
       seeded_read_batch a fuel batch_size images_source wnid_labels wB = Ret out wB') /\
  (forall (fuel : nat) (w w' : world) (out : batch),
     seeded_read_batch a fuel batch_size images_source wnid_labels w = Ret out w' ->
     exists w'',
       seeded_read_batch a fuel batch_size images_source wnid_labels w' = Ret out w'') /\
  (forall (fuel1 fuel2 : nat) (wA wB wA' wB' : world) (outA outB : batch),
     fs wA = fs wB ->
     seeded_read_batch a fuel1 batch_size images_source wnid_labels wA = Ret outA wA' ->
     seeded_read_batch a fuel2 batch_size images_source wnid_labels wB = Ret outB wB' ->
     outA = outB).
Proof.
  assert (Hrep : forall (fuel : nat) (wA wB wA' : world) (out : batch),
     fs wA = fs wB ->
     seeded_read_batch a fuel batch_size images_source wnid_labels wA = Ret out wA' ->
     exists wB',
       seeded_read_batch a fuel batch_size images_source wnid_labels wB = Ret out wB').
  { intros fuel wA wB wA' out Hfs HA. unfold seeded_read_batch in HA |- *.
    apply bind_Ret_inv in HA as ([] & wA0 & HsA & HA). injection HsA as <-.
    pose proof (fun v H1 H2 => read_batch_replay _ _ _ _ _ _ v _ H1 H2 HA) as Hr.
    destruct (Hr (mk_world (fs wB) (rng_seed a) (log wB)) Hfs eq_refl) as (wB' & HB & _).
    exists wB'. exact HB. }
  split; [exact Hrep|]. split.
  - intros fuel w w' out H1.
    apply (Hrep fuel w w' w' out); [|exact H1].
    unfold seeded_read_batch in H1.
    apply bind_Ret_inv in H1 as ([] & w0 & Hs & H1). injection Hs as <-.
    destruct out as [imgs lbls].
    apply read_batch_Ret_inv in H1 as (ks & _ & _ & _ & _ & _ & Hf).
    symmetry. exact Hf.
  - intros fuel1 fuel2 wA wB wA' wB' outA outB Hfs HA HB.
    unfold seeded_read_batch in HA, HB.
    apply bind_Ret_inv in HA as ([] & wA0 & HsA & HA).
    apply bind_Ret_inv in HB as ([] & wB0 & HsB & HB).
    injection HsA as <-. injection HsB as <-.
    pose proof (fun H1 H2 => read_batch_det _ _ _ _ _ _ _ _ _ _ _ H1 H2 HA HB) as Hdet.
    destruct (Hdet Hfs eq_refl) as (Ho & _). exact Ho.
Qed.

Lemma read_batch_seeded_deterministic_witness :
  exists out w',
    @seeded_read_batch scripted nearest_resampler 1 1 1 "root" ["a"; "b"; "c"]
        (boot three_classes [9]) = Ret out w' /\
    exists w'',
      @seeded_read_batch scripted nearest_resampler 1 1 1 "root" ["a"; "b"; "c"] w'
        = Ret out w''.
Proof.
  eexists _, _.
  split; [exact (sample_seeded_run [9] [])|].
  exact (proj1 (proj2 (read_batch_seeded_deterministic scripted nearest_resampler 1 1
                         "root" ["a"; "b"; "c"]))
           1 _ _ _ (sample_seeded_run [9] [])).
Defined.

(** * Further properties of the data pipeline *)

(** ** [one_hot] outside the documented range *)

Lemma norm_index_negative (i : Z) (n : nat) :
  (- Z.of_nat n <= i < 0)%Z -> norm_index i n = Ok (Z.to_nat (i + Z.of_nat n)).
Proof.
  intros Hi. unfold norm_index.
  destruct (Z.ltb_spec i 0) as [_|Hpos]; [|lia].
  destruct (Z.leb_spec 0 (i + Z.of_nat n)) as [_|Hneg]; [|lia].
  destruct (Z.ltb_spec (i + Z.of_nat n) (Z.of_nat n)) as [_|Hbig]; [|lia].
  reflexivity.
Qed.

Lemma norm_index_outside (i : Z) (n : nat) :
  (i < - Z.of_nat n \/ Z.of_nat n <= i)%Z -> norm_index i n = Err IndexError.
Proof.
  intros [Hlow|Hhigh]; [|apply norm_index_too_big; exact Hhigh].
  unfold norm_index.
  destruct (Z.ltb_spec i 0) as [_|Hpos]; [|lia].
  destruct (Z.leb_spec 0 (i + Z.of_nat n)) as [Hge|_]; [lia|].
  reflexivity.
Qed.

(** [one_hot] does not enforce the range 0-199 of its docstring: it
    succeeds exactly for indices from -200 to 199, a negative index
    counting from the end of the vector as NumPy indexing does, so that
    [one_hot(-k)] is [one_hot(200 - k)]; any other index raises
    [IndexError]. *)
Theorem one_hot_index_domain (i : Z) :
  ((exists vec, one_hot i = Ok vec) <-> (-200 <= i <= 199)%Z) /\
  ((i < -200 \/ 199 < i)%Z -> one_hot i = Err IndexError) /\
  ((-200 <= i < 0)%Z -> one_hot i = Ok (unit_vector (Z.to_nat (i + 200))) /\
                         one_hot i = one_hot (i + 200)).
Proof.
  assert (Hout : (i < -200 \/ 199 < i)%Z -> one_hot i = Err IndexError).
  { intros Hi. unfold one_hot, np.setitem. cbn [shape np.zeros].
    rewrite norm_index_outside by lia. reflexivity. }
  assert (Hneg : (-200 <= i < 0)%Z ->
                 one_hot i = Ok (unit_vector (Z.to_nat (i + 200)))).
  { intros Hi. rewrite <- (Z2Nat.id (i + 200)) at 1 by lia.
    rewrite <- one_hot_unit_vector by lia.
    unfold one_hot, np.setitem. cbn [shape np.zeros].
    rewrite norm_index_negative by lia.
    rewrite norm_index_in_range by lia.
    rewrite Z2Nat.id by lia. reflexivity. }
  split; [|split].
  - split.
    + intros [vec Hvec].
      destruct (Z_lt_le_dec i (-200)) as [Hl|Hl];
        [rewrite Hout in Hvec by lia; discriminate Hvec|].
      destruct (Z_lt_le_dec 199 i) as [Hh|Hh];
        [rewrite Hout in Hvec by lia; discriminate Hvec|].
      lia.
    + intros Hi. destruct (Z_lt_le_dec i 0) as [Hn|Hp].
      * eexists. apply Hneg. lia.
      * eexists. apply one_hot_unit_vector. lia.
  - exact Hout.
  - intros Hi. split; [apply Hneg; exact Hi|].
    rewrite Hneg by exact Hi. rewrite one_hot_unit_vector by lia. reflexivity.
Qed.

Lemma one_hot_index_domain_witness :
  (-200 <= -1 < 0)%Z /\
  one_hot (-1) = Ok (unit_vector 199) /\ one_hot (-1) = one_hot 199.
Proof.
  split; [lia|].
  exact (proj2 (proj2 (one_hot_index_domain (-1))) ltac:(lia)).
Defined.

(** ** Decoding a label *)

Lemma argmax_from_zeros (best : nat) (best_value : float) (i n : nat) (rest : list float) :
  Qle_bool 0 best_value = true ->
  argmax_from best best_value i (repeat 0%Q n ++ rest) =
    argmax_from best best_value (i + n) rest.
Proof.
  intros Hb. revert i. induction n as [|n IH]; intros i.
  - rewrite Nat.add_0_r. reflexivity.
  - cbn [repeat app argmax_from]. rewrite Hb, IH. f_equal. lia.
Qed.

Lemma argmax_unit_vector (k : nat) :
  k < 200 -> argmax (data (unit_vector k)) = Some k.
Proof.
  intros Hk. cbn [data unit_vector]. destruct k as [|k].
  - cbn [repeat app argmax]. apply f_equal.
    rewrite <- (app_nil_r (repeat 0%Q (199 - 0))).
    rewrite argmax_from_zeros by reflexivity. reflexivity.
  - cbn [repeat app argmax]. apply f_equal.
    rewrite argmax_from_zeros by reflexivity.
    cbn [app argmax_from]. change (Qle_bool 1 0) with false. cbn iota.
    rewrite <- (app_nil_r (repeat 0%Q (199 - S k))).
    rewrite argmax_from_zeros by reflexivity. reflexivity.
Qed.

(** Encoding then decoding a label gives the class back: for an index
    [i] in [0, 199], the [tf.argmax] of [one_hot(i)] is [i].  The largest
    entry occurs once, so the answer does not depend on how ties are
    broken: [i] is the only position whose entry is at least as large as
    every entry.  Hence different classes never share a label. *)
Theorem one_hot_argmax (i : Z) :
  (0 <= i <= 199)%Z ->
  exists vec : ndarray float,
    one_hot i = Ok vec /\
    argmax (data vec) = Some (Z.to_nat i) /\
    (forall j x,
       nth_error (data vec) j = Some x ->
       (forall j' y, nth_error (data vec) j' = Some y -> (y <= x)%Q) ->
       j = Z.to_nat i) /\
    (forall i' : Z, (0 <= i' <= 199)%Z -> one_hot i' = Ok vec -> i' = i).
Proof.
  intros Hi. assert (Hk : Z.to_nat i < 200) by lia.
  exists (unit_vector (Z.to_nat i)).
  split; [apply one_hot_unit_vector; exact Hi|].
  split; [apply argmax_unit_vector; exact Hk|].
  assert (Hmax : forall k j x, k < 200 ->
            nth_error (data (unit_vector k)) j = Some x ->
            (forall j' y, nth_error (data (unit_vector k)) j' = Some y -> (y <= x)%Q) ->
            j = k).
  { intros k j x Hlt Hj Hall.
    assert (H1 : nth_error (data (unit_vector k)) k = Some 1%Q).
    { rewrite unit_vector_entry by exact Hlt. rewrite Nat.eqb_refl. reflexivity. }
    specialize (Hall k 1%Q H1).
    rewrite unit_vector_entry in Hj by exact Hlt.
    destruct (Nat.eqb_spec j k) as [Heq|Hne]; [exact Heq|].
    destruct (j <? 200); [|discriminate Hj].
    injection Hj as <-. exfalso. revert Hall. apply Qlt_not_le. reflexivity. }
  split.
  - intros j x Hj Hall. exact (Hmax _ j x Hk Hj Hall).
  - intros i' Hi' Hvec. rewrite one_hot_unit_vector in Hvec by exact Hi'.
    assert (Heq : unit_vector (Z.to_nat i') = unit_vector (Z.to_nat i))
      by congruence.
    assert (Hk' : Z.to_nat i' < 200) by lia.
    pose proof (argmax_unit_vector _ Hk') as Ha. rewrite Heq in Ha.
    rewrite (argmax_unit_vector _ Hk) in Ha. injection Ha as Ha. lia.
Qed.

Lemma one_hot_argmax_witness :
  (0 <= 42 <= 199)%Z /\
  exists vec : ndarray float,
    one_hot 42 = Ok vec /\ argmax (data vec) = Some 42.
Proof.
  split; [lia|].
  destruct (one_hot_argmax 42 ltac:(lia)) as (vec & Hv & Ha & _).
  exists vec. split; [exact Hv|exact Ha].
Defined.

(** ** What a returned batch holds *)

Lemma one_hot_outside (i : Z) :
  (i < -200 \/ 199 < i)%Z -> one_hot i = Err IndexError.
Proof.
  intros Hi. unfold one_hot, np.setitem. cbn [shape np.zeros].
  rewrite norm_index_outside by lia. reflexivity.
Qed.

Section Samples.

Context {RS : RandomSource} {RK : Resampler}.

Lemma sample_of_shapes (root : node) (images_source : string)
    (wnid_labels : list string) (img : ndarray Z) (lbl : ndarray float) :
  sample_of root images_source wnid_labels img lbl ->
  (shape img = [224; 224; 3] /\ List.length (data img) = 224 * 224 * 3) /\
  (shape lbl = [200] /\ List.length (data lbl) = 200).
Proof.
  intros (k & wnid & name & entries & im & _ & _ & _ & _ & _ & Hpre & Hlbl).
  rewrite preprocess_eq in Hpre. injection Hpre as <-.
  split; [split; [reflexivity|apply length_preprocessed]|].
  destruct (Nat.lt_ge_cases k 200) as [Hk|Hk].
  - rewrite one_hot_unit_vector in Hlbl by lia. injection Hlbl as <-.
    split; [reflexivity|].
    cbn [data unit_vector]. rewrite !length_app, !repeat_length.
    cbn [List.length]. rewrite Nat2Z.id. lia.
  - rewrite one_hot_outside in Hlbl by lia. discriminate Hlbl.
Qed.

Lemma read_batch_step_sample (fuel : nat) (images_source : string)
    (wnid_labels : list string) (acc acc' : batch) (w w' : world) :
  read_batch_step fuel images_source wnid_labels acc w = Ret acc' w' ->
  exists img lbl,
    acc' = (fst acc ++ [img], snd acc ++ [lbl]) /\
    sample_of (fs w) images_source wnid_labels img lbl /\
    fs w' = fs w.
Proof.
  destruct acc as [bi bl]. rewrite read_batch_step_run. intros Hret.
  apply bind_Ret_inv in Hret as (folder & w1 & Hfold & Hret).
  apply bind_Ret_inv in Hret as (img & w2 & Himg & Hret).
  apply bind_Ret_inv in Hret as (lbl & w3 & Hlbl & Hret).
  apply find_folder_Ret_inv in Hfold as (wnid & Hget & -> & _ & ->).
  rewrite list_getitem_nat in Hget.
  destruct (nth_error wnid_labels (drawn w 200)) as [wnid'|] eqn:Hnth;
    [|discriminate Hget].
  injection Hget as ->.
  apply lift_Ret_inv in Hlbl as [Hlbl ->]. injection Hret as <- <-.
  pose proof (read_image_fs _ _ _ _ _ Himg) as Hfs.
  destruct (read_image_Ret_dir _ _ _ _ _ Himg) as [entries Hdir].
  assert (Hne : entries <> []).
  { intros ->. destruct fuel as [|fuel]; [discriminate Himg|].
    rewrite (read_image_empty fuel _ _ Hdir) in Himg. discriminate Himg. }
  destruct (read_image_Ret_inv _ entries _ _ _ _ Hdir Himg)
    as (j & im & _ & Him & Hshape & -> & _ & _).
  cbn [fs logged after_draw] in Hdir, Him, Hfs.
  exists (preprocessed (Image.convert_RGB im)), lbl.
  split; [reflexivity|]. split; [|exact Hfs].
  eexists (drawn w 200), wnid, _, entries, im.
  split; [exact Hnth|]. split; [exact Hdir|]. split.
  { apply attempt_name_In. destruct entries; [contradiction|discriminate]. }
  split; [exact Him|]. split; [exact Hshape|].
  split; [apply preprocess_eq|exact Hlbl].
Qed.

Lemma for_each_steps_samples (fuel : nat) (images_source : string)
    (wnid_labels : list string) (l : list Z) :
  forall (acc acc' : batch) (w w' : world),
    for_each l (fun _ => read_batch_step fuel images_source wnid_labels) acc w
      = Ret acc' w' ->
    exists imgs lbls,
      acc' = (fst acc ++ imgs, snd acc ++ lbls) /\
      Forall2 (sample_of (fs w) images_source wnid_labels) imgs lbls /\
      List.length imgs = List.length l /\
      fs w' = fs w.
Proof.
  induction l as [|x t IH]; intros acc acc' w w' Hret.
  - injection Hret as <- <-. exists [], []. destruct acc as [bi bl].
    cbn [fst snd]. rewrite !app_nil_r. repeat split. constructor.
  - cbn [for_each] in Hret.
    apply bind_Ret_inv in Hret as (acc1 & w1 & Hstep & Hrest).
    apply read_batch_step_sample in Hstep as (img & lbl & -> & Hs & Hfs1).
    apply IH in Hrest as (imgs & lbls & -> & Hall & Hlen & Hfs).
    exists (img :: imgs), (lbl :: lbls). cbn [fst snd List.length].
    rewrite <- !app_assoc. cbn [app].
    split; [reflexivity|]. split; [|split; [congruence|congruence]].
    constructor; [exact Hs|]. rewrite <- Hfs1. exact Hall.
Qed.

End Samples.

(** Every batch that [read_batch] returns pairs each image with the label
    of its own class: the image at position [p] is the preprocessed form
    of a 64 by 64 file listed in the [images] folder of some class
    identifier [wnid_labels[k]], and the label at position [p] is
    [one_hot(k)] for that same [k].  All images have shape (224, 224, 3)
    and all labels 200 entries. *)
Theorem read_batch_samples (RS : RandomSource) (RK : Resampler) (fuel : nat)
    (batch_size : Z) (images_source : string) (wnid_labels : list string)
    (imgs : list (ndarray Z)) (lbls : list (ndarray float)) (w w' : world) :
  read_batch fuel batch_size images_source wnid_labels w = Ret (imgs, lbls) w' ->
  Forall2 (sample_of (fs w) images_source wnid_labels) imgs lbls /\
  Forall (fun a => shape a = [224; 224; 3] /\ List.length (data a) = 224 * 224 * 3) imgs /\
  Forall (fun l => shape l = [200] /\ List.length (data l) = 200) lbls.
Proof.
  unfold read_batch. intros Hret.
  apply bind_Ret_inv in Hret as ([bi bl] & w1 & Hloop & Hret).
  apply bind_Ret_inv in Hret as (s1 & w2 & Hv1 & Hret).
  apply bind_Ret_inv in Hret as (s2 & w3 & Hv2 & Hret).
  injection Hret as <- <- _.
  apply for_each_steps_samples in Hloop as (imgs & lbls & Hacc & Hall & _ & _).
  cbn [fst snd app] in Hacc. injection Hacc as -> ->.
  split; [exact Hall|].
  clear Hv1 Hv2. induction Hall as [|img lbl imgs lbls Hs Hall IH].
  - split; constructor.
  - destruct IH as [IHi IHl].
    destruct (sample_of_shapes _ _ _ _ _ Hs) as [Hi Hl].
    split; constructor; assumption.
Qed.

Lemma read_batch_samples_witness :
  exists imgs lbls w',
    @read_batch scripted nearest_resampler 1 1 "root" ["a"; "b"; "c"]
        (boot three_classes [1]) = Ret (imgs, lbls) w' /\
    Forall2 (@sample_of nearest_resampler three_classes "root" ["a"; "b"; "c"]) imgs lbls.
Proof.
  eexists _, _, _. split; [exact (sample_batch_run [])|].
  exact (proj1 (read_batch_samples scripted nearest_resampler 1 1 "root" ["a"; "b"; "c"]
                  _ _ (boot three_classes [1]) _ (sample_batch_run []))).
Defined.

(** ** Errors of the sampler *)

Section Errors.

Context {RS : RandomSource} {RK : Resampler}.

Lemma bind_Raise_inv {A B} (m : M A) (k : A -> M B) (w w' : world) (e : exn) :
  bind m k w = Raise e w' ->
  m w = Raise e w' \/ exists a w1, m w = Ret a w1 /\ k a w1 = Raise e w'.
Proof.
  unfold bind. destruct (m w) as [a w1|e1 w1|w1]; intros E; try discriminate E.
  - right. exists a, w1. split; [reflexivity|exact E].
  - left. injection E as -> ->. reflexivity.
Qed.

Lemma lift_Raise_inv {A} (r : result A) (w w' : world) (e : exn) :
  lift r w = Raise e w' -> r = Err e /\ w' = w.
Proof.
  destruct r as [a|e1]; cbn; intros E; inversion E. split; reflexivity.
Qed.


Lemma for_each_Raise_inv {X S} (body : X -> S -> M S) (l : list X) :
  forall (acc : S) (w w' : world) (e : exn),
    for_each l body acc w = Raise e w' ->
    exists l1 x l2 acc1 w1,
      l = l1 ++ x :: l2 /\
      for_each l1 body acc w = Ret acc1 w1 /\
      body x acc1 w1 = Raise e w'.
Proof.
  induction l as [|x t IH]; intros acc w w' e Hr; [discriminate Hr|].
  cbn [for_each] in Hr.
  apply bind_Raise_inv in Hr as [Hr|(acc1 & w1 & Hstep & Hr)].
  - exists [], x, t, acc, w. repeat split. exact Hr.
  - destruct (IH _ _ _ _ Hr) as (l1 & y & l2 & acc2 & w2 & -> & Hpre & Hy).
    exists (x :: l1), y, l2, acc2, w2. split; [reflexivity|]. split; [|exact Hy].
    cbn [for_each]. rewrite (bind_Ret _ _ _ _ _ Hstep). exact Hpre.
Qed.

Lemma shape_atleast_2d {A} (a b : ndarray A) :
  shape a = shape b -> shape (np.atleast_2d a) = shape (np.atleast_2d b).
Proof.
  unfold np.atleast_2d. intros E. rewrite E.
  destruct (shape b) as [|n [|m s]] eqn:Hb; cbn [shape];
    [reflexivity|reflexivity|congruence].
Qed.

Lemma vstack_same_shape {A} (a : ndarray A) (rest : list (ndarray A)) :
  Forall (fun b => shape b = shape a) rest ->
  exists r, np.vstack (a :: rest) = Ok r.
Proof.
  intros Hall. unfold np.vstack. cbn [map].
  assert (Hf : forallb (fun b => shape_eqb (tl (shape (np.atleast_2d a))) (tl (shape b)))
                 (map np.atleast_2d rest) = true).
  { apply forallb_forall. intros b Hb. apply in_map_iff in Hb as (b0 & <- & Hin).
    rewrite Forall_forall in Hall.
    rewrite (shape_atleast_2d b0 a (Hall _ Hin)). apply shape_eqb_eq. reflexivity. }
  rewrite Hf. eexists. reflexivity.
Qed.

End Errors.

Section Stacking.

Context {RS : RandomSource} {RK : Resampler}.

(** Once the loop of [read_batch] has gathered the samples of a batch of
    at least one, the two [np.vstack] calls succeed. *)
Lemma read_batch_after_loop (fuel : nat) (batch_size : Z) (images_source : string)
    (wnid_labels : list string) (acc : batch) (w w1 : world) :
  (1 <= batch_size)%Z ->
  for_each (range batch_size)
    (fun _ => read_batch_step fuel images_source wnid_labels) ([], []) w = Ret acc w1 ->
  read_batch fuel batch_size images_source wnid_labels w = Ret acc w1.
Proof.
  intros Hn Hloop.
  destruct (for_each_steps_samples _ _ _ _ _ _ _ _ Hloop)
    as (imgs & lbls & Hacc & Hall & Hlen & _).
  cbn [fst snd app] in Hacc. subst acc.
  rewrite length_range in Hlen.
  assert (Hshapes :
    Forall (fun a => shape a = [224; 224; 3]) imgs /\
    Forall (fun l => shape l = [200]) lbls).
  { clear Hloop Hlen. induction Hall as [|img lbl imgs lbls Hs Hall IH];
      [split; constructor|].
    destruct IH as [IHi IHl].
    destruct (sample_of_shapes _ _ _ _ _ Hs) as [[Hi _] [Hl _]].
    split; constructor; assumption. }
  destruct Hshapes as [Hsi Hsl].
  destruct imgs as [|i0 imgs]; [cbn [List.length] in Hlen; lia|].
  destruct lbls as [|l0 lbls]; [inversion Hall|].
  inversion Hsi as [|? ? Hi0 Hirest]; subst.
  inversion Hsl as [|? ? Hl0 Hlrest]; subst.
  destruct (vstack_same_shape i0 imgs) as [r1 Hr1].
  { eapply Forall_impl; [|exact Hirest]. cbn beta. intros a Ha. congruence. }
  destruct (vstack_same_shape l0 lbls) as [r2 Hr2].
  { eapply Forall_impl; [|exact Hlrest]. cbn beta. intros a Ha. congruence. }
  unfold read_batch. rewrite (bind_Ret _ _ _ _ _ Hloop).
  unfold bind. rewrite Hr1. cbn [lift ret]. rewrite Hr2. reflexivity.
Qed.

End Stacking.

(** The two [np.vstack] calls at the end of [read_batch] raise on an
    empty batch and on no other.  For a batch size of zero or less the
    loop body never runs and [np.vstack] of the empty list raises
    [ValueError], before anything was drawn or the file system touched.
    For a batch size of at least 1 they cannot fail, because the images
    gathered all have one shape and so do the labels: when the loop has
    made its passes the batch is returned, so whatever such a call raises
    was raised inside one pass of the loop, after the passes before it
    had succeeded. *)
Theorem read_batch_value_error (RS : RandomSource) (RK : Resampler) (fuel : nat)
    (batch_size : Z) (images_source : string) (wnid_labels : list string) (w : world) :
  ((batch_size <= 0)%Z ->
     read_batch fuel batch_size images_source wnid_labels w = Raise ValueError w) /\
  ((1 <= batch_size)%Z ->
     forall acc w1,
       for_each (range batch_size)
         (fun _ => read_batch_step fuel images_source wnid_labels) ([], []) w
         = Ret acc w1 ->
       read_batch fuel batch_size images_source wnid_labels w = Ret acc w1) /\
  ((1 <= batch_size)%Z ->
     forall e w',
       read_batch fuel batch_size images_source wnid_labels w = Raise e w' ->
       exists l1 x l2 acc1 w1,
         range batch_size = l1 ++ x :: l2 /\
         for_each l1 (fun _ => read_batch_step fuel images_source wnid_labels) ([], []) w
           = Ret acc1 w1 /\
         read_batch_step fuel images_source wnid_labels acc1 w1 = Raise e w').
Proof.
  split; [|split].
  - intros Hn. unfold read_batch, range.
    replace (Z.to_nat batch_size) with 0 by lia. reflexivity.
  - intros Hn acc w1. apply read_batch_after_loop. exact Hn.
  - intros Hn e w' Hr.
    destruct (for_each (range batch_size)
                (fun _ => read_batch_step fuel images_source wnid_labels) ([], []) w)
      as [acc w1|e1 w1|w1] eqn:Hloop.
    + rewrite (read_batch_after_loop _ _ _ _ _ _ _ Hn Hloop) in Hr. discriminate Hr.
    + unfold read_batch in Hr. rewrite (bind_Raise _ _ _ _ _ Hloop) in Hr.
      injection Hr as <- <-.
      exact (for_each_Raise_inv _ _ _ _ _ _ Hloop).
    + unfold read_batch in Hr. rewrite (bind_Timeout _ _ _ _ Hloop) in Hr.
      discriminate Hr.
Qed.

Lemma read_batch_value_error_witness :
  @read_batch scripted nearest_resampler 1 (-3) "root" ["a"; "b"; "c"]
      (boot three_classes [1]) = Raise ValueError (boot three_classes [1]) /\
  (exists l1 x l2 acc1 w1,
     range 1 = l1 ++ x :: l2 /\
     for_each l1
       (fun _ => @read_batch_step scripted nearest_resampler 7 "root" ["a"; "b"; "c"; "d"])
       ([], []) (boot damaged [1]) = Ret acc1 w1 /\
     @read_batch_step scripted nearest_resampler 7 "root" ["a"; "b"; "c"; "d"] acc1 w1 =
       Raise IndexError
         (@mk_world scripted damaged []
            [EvListdir "root/b/images"; EvExists "root/b/images"])).
Proof.
  split.
  - exact (proj1 (read_batch_value_error scripted nearest_resampler 1 (-3) "root"
                    ["a"; "b"; "c"] (boot three_classes [1])) ltac:(lia)).
  - exact (proj2 (proj2 (read_batch_value_error scripted nearest_resampler 7 1 "root"
                           ["a"; "b"; "c"; "d"] (boot damaged [1])))
             ltac:(lia) IndexError _ eq_refl).
Defined.

(** ** What [read_image] cannot read *)

Section Unreadable.

Context {RS : RandomSource} {RK : Resampler}.


End Unreadable.



(** ** The cost of a call of [read_image] *)

Section Cost.

Context {RS : RandomSource} {RK : Resampler}.

Lemma length_attempts_log (s : rng_state) (folder : string) (names : list string)
    (j : nat) :
  List.length (attempts_log s folder names j) = 2 * j.
Proof.
  revert s. induction j as [|j IH]; intros s; [reflexivity|].
  cbn [attempts_log]. rewrite length_app, IH. cbn [List.length]. lia.
Qed.

Lemma read_image_trace (folder : string) (entries : list (string * node)) (fuel : nat) :
  forall (w w' : world) (arr : ndarray Z),
    resolve (fs w) folder = Some (Dir true entries) ->
    read_image fuel folder w = Ret arr w' ->
    exists j,
      j < fuel /\
      conforming (fs w) folder (attempt_name (gen w) (map fst entries) j) = true /\
      (forall i, i < j ->
         conforming (fs w) folder (attempt_name (gen w) (map fst entries) i) = false) /\
      gen w' = gen_after (gen w) (List.length (map fst entries)) (S j) /\
      log w' = attempts_log (gen w) folder (map fst entries) (S j) ++ log w.
Proof.
  induction fuel as [|fuel IH]; intros w w' arr Hdir Hret; [discriminate Hret|].
  destruct entries as [|e0 rest] eqn:Hent.
  { rewrite (read_image_empty _ _ _ Hdir) in Hret. discriminate Hret. }
  rewrite <- Hent in *.
  assert (Hne : entries <> []) by (rewrite Hent; discriminate).
  rewrite (read_image_attempt fuel folder entries w Hdir Hne) in Hret.
  cbn zeta in Hret.
  destruct (resolve (fs w) (os.path.join folder (attempt_name (gen w) (map fst entries) 0)))
    as [[[im|]|r sub]|] eqn:Him; try discriminate Hret.
  destruct (shape_eqb (shape (array_of_image (Image.convert_RGB im))) [64; 64; 3]) eqn:Hshape.
  - injection Hret as <- <-. exists 0.
    split; [lia|]. split; [rewrite (conforming_file _ _ _ _ Him); exact Hshape|].
    split; [intros i Hi; lia|]. split; reflexivity.
  - destruct (IH (after_attempt w folder (map fst entries)) w' arr Hdir Hret)
      as (j & Hj & Hconf & Hmin & Hgen & Hlog).
    exists (S j). split; [lia|]. split; [exact Hconf|]. split.
    { intros [|i] Hi.
      - rewrite (conforming_file _ _ _ _ Him). exact Hshape.
      - apply (Hmin i). lia. }
    split; [exact Hgen|].
    rewrite Hlog. cbn [log after_attempt gen].
    change (attempts_log (gen w) folder (map fst entries) (S (S j)))
      with (attempts_log (snd (rng_randbelow (gen w) (List.length (map fst entries))))
              folder (map fst entries) (S j)
            ++ [EvOpen (os.path.join folder (attempt_name (gen w) (map fst entries) 0));
                EvListdir folder]).
    rewrite <- app_assoc. reflexivity.
Qed.

End Cost.

(** A call of [read_image] that returns has made as many passes as it
    took to draw the first image of shape (64, 64, 3), and each pass cost
    one draw, one listing of the folder and one opened file: after [j]
    rejected draws the generator has advanced [j + 1] times and the call
    has made [2 * (j + 1)] file-system calls, an [os.listdir] of the same
    folder before every [Image.open]. *)
Theorem read_image_cost (RS : RandomSource) (RK : Resampler) (fuel : nat)
    (folder : string) (entries : list (string * node)) (w w' : world)
    (arr : ndarray Z) :
  resolve (fs w) folder = Some (Dir true entries) ->
  read_image fuel folder w = Ret arr w' ->
  exists j,
    j < fuel /\
    conforming (fs w) folder (attempt_name (gen w) (map fst entries) j) = true /\
    (forall i, i < j ->
       conforming (fs w) folder (attempt_name (gen w) (map fst entries) i) = false) /\
    gen w' = gen_after (gen w) (List.length (map fst entries)) (S j) /\
    log w' = attempts_log (gen w) folder (map fst entries) (S j) ++ log w /\
    List.length (log w') = 2 * (S j) + List.length (log w).
Proof.
  intros Hdir Hret.
  destruct (read_image_trace folder entries fuel w w' arr Hdir Hret)
    as (j & Hj & Hconf & Hmin & Hgen & Hlog).
  exists j. repeat split; try assumption.
  rewrite Hlog, length_app, length_attempts_log. reflexivity.
Qed.

Lemma read_image_cost_witness :
  resolve damaged "root/c/images" =
    Some (Dir true [("c_0.JPEG", File (Some thumb32)); ("c_1.JPEG", File (Some grey64))]) /\
  exists arr w',
    @read_image scripted nearest_resampler 2 "root/c/images" (boot damaged [0; 1])
      = Ret arr w' /\
    List.length (log w') = 4.
Proof.
  split; [reflexivity|].
  assert (Hrun : exists arr w',
            @read_image scripted nearest_resampler 2 "root/c/images" (boot damaged [0; 1])
              = Ret arr w').
  { apply (@read_image_reaches scripted nearest_resampler "root/c/images"
             [("c_0.JPEG", File (Some thumb32)); ("c_1.JPEG", File (Some grey64))]
             1 ltac:(discriminate) (boot damaged [0; 1]) eq_refl).
    - intros name [<-|[<-|[]]]; reflexivity.
    - reflexivity. }
  destruct Hrun as (arr & w' & Hrun). exists arr, w'. split; [exact Hrun|].
  destruct (read_image_cost scripted nearest_resampler 2 "root/c/images" _
              (boot damaged [0; 1]) w' arr eq_refl Hrun)
    as (j & Hj & Hconf & Hmin & _ & _ & Hlen).
  assert (Hj1 : j = 1).
  { destruct j as [|[|j]]; [discriminate Hconf|reflexivity|lia]. }
  subst j. exact Hlen.
Defined.

(** ** Where the sampler looks *)

Lemma startswith_sep_app (a b : string) :
  a <> EmptyString -> startswith_sep (a ++ b)%string = startswith_sep a.
Proof. destruct a as [|c a]; [contradiction|reflexivity]. Qed.

Lemma append_nonempty_r (a b : string) :
  b <> EmptyString -> (a ++ b)%string <> EmptyString.
Proof. destruct a as [|c a]; [intros H; exact H|discriminate]. Qed.

Lemma endswith_sep_app (a b : string) :
  b <> EmptyString -> endswith_sep (a ++ b)%string = endswith_sep b.
Proof.
  intros Hb. induction a as [|c a IH]; [reflexivity|].
  cbn [append endswith_sep].
  destruct (a ++ b)%string as [|c' r] eqn:E.
  - exfalso. exact (append_nonempty_r a b Hb E).
  - exact IH.
Qed.

Lemma join_relative (a b : string) :
  a <> EmptyString -> endswith_sep a = false -> startswith_sep b = false ->
  os.path.join a b = (a ++ "/" ++ b)%string.
Proof.
  intros Ha He Hs. unfold os.path.join. rewrite Hs, He.
  apply String.eqb_neq in Ha. rewrite Ha. reflexivity.
Qed.

(** The file behind an image of a batch is
    [images_source/wnid/images/name]: that is the path [read_batch] and
    [read_image] build with [os.path.join] when the root and the class
    identifier are plain names (not empty, no slash at either end of the
    identifier nor at the end of the root) and the file name does not
    start with a slash.  A class identifier that starts with a slash is
    taken as an absolute path: the folder tested and read is then
    [wnid/images], outside [images_source]. *)
Theorem sample_path_layout (images_source wnid name : string) :
  (images_source <> EmptyString -> endswith_sep images_source = false ->
   wnid <> EmptyString -> startswith_sep wnid = false -> endswith_sep wnid = false ->
   startswith_sep name = false ->
   os.path.join images_source (os.path.join wnid "images")
     = (images_source ++ "/" ++ wnid ++ "/images")%string /\
   os.path.join (os.path.join images_source (os.path.join wnid "images")) name
     = ((images_source ++ "/" ++ wnid ++ "/images") ++ "/" ++ name)%string) /\
  (startswith_sep wnid = true ->
   os.path.join images_source (os.path.join wnid "images")
     = os.path.join wnid "images").
Proof.
  split.
  - intros Hs Hse Hw Hws Hwe Hn.
    assert (H1 : os.path.join wnid "images" = (wnid ++ "/images")%string).
    { apply join_relative; [exact Hw|exact Hwe|reflexivity]. }
    assert (H2 : os.path.join images_source (wnid ++ "/images")%string
                 = (images_source ++ "/" ++ wnid ++ "/images")%string).
    { apply join_relative; [exact Hs|exact Hse|].
      rewrite startswith_sep_app by exact Hw. exact Hws. }
    rewrite H1, H2. split; [reflexivity|].
    apply join_relative; [|  |exact Hn].
    + apply append_nonempty_r. discriminate.
    + change (images_source ++ "/" ++ wnid ++ "/images")%string
        with (images_source ++ ("/" ++ (wnid ++ "/images")))%string.
      rewrite endswith_sep_app by discriminate.
      change ("/" ++ (wnid ++ "/images"))%string with (String "/" (wnid ++ "/images")).
      change (String "/" (wnid ++ "/images")) with ("/" ++ (wnid ++ "/images"))%string.
      rewrite endswith_sep_app by (apply append_nonempty_r; discriminate).
      rewrite endswith_sep_app by discriminate. reflexivity.
  - intros Habs. unfold os.path.join at 1.
    assert (Hj : startswith_sep (os.path.join wnid "images") = true).
    { unfold os.path.join. change (startswith_sep "images") with false. cbn iota.
      assert (Hw : wnid <> EmptyString) by (intros ->; discriminate Habs).
      destruct (String.eqb wnid EmptyString || endswith_sep wnid);
        rewrite startswith_sep_app by exact Hw; exact Habs. }
    rewrite Hj. reflexivity.
Qed.

Lemma sample_path_layout_witness :
  os.path.join "tiny-imagenet-200/train" (os.path.join "n01910747" "images")
    = "tiny-imagenet-200/train/n01910747/images" /\
  os.path.join
    (os.path.join "tiny-imagenet-200/train" (os.path.join "n01910747" "images"))
    "n01910747_0.JPEG"
    = "tiny-imagenet-200/train/n01910747/images/n01910747_0.JPEG".
Proof.
  exact (proj1 (sample_path_layout "tiny-imagenet-200/train" "n01910747" "n01910747_0.JPEG")
           ltac:(discriminate) eq_refl ltac:(discriminate) eq_refl eq_refl eq_refl).
Defined.

(** * The network *)

(** ** Shapes of single layers *)

Lemma broadcast_dimension_same (c : nat) :
  tf.broadcast_dimension (Some c) (Some c) = Built (Some c).
Proof.
  unfold tf.broadcast_dimension.
  destruct (c =? 1); [reflexivity|]. rewrite Nat.eqb_refl. reflexivity.
Qed.

Lemma add_bias4 (n a b : dimension) (c : nat) :
  tf.add [n; a; b; Some c] (bias [c]) = Built [n; a; b; Some c].
Proof.
  unfold tf.add, bias. cbn [map rev app tf.broadcast_reversed].
  rewrite broadcast_dimension_same. reflexivity.
Qed.

Lemma add_bias2 (n : dimension) (c : nat) :
  tf.add [n; Some c] (bias [c]) = Built [n; Some c].
Proof.
  unfold tf.add, bias. cbn [map rev app tf.broadcast_reversed].
  rewrite broadcast_dimension_same. reflexivity.
Qed.

Lemma conv_depth_equal (c : nat) (cout : dimension) :
  0 < c -> tf.nn.conv_depth (Some c) (Some c) cout = Built tt.
Proof.
  intros Hc. unfold tf.nn.conv_depth.
  destruct (Nat.eqb_spec c 0) as [E|_]; [lia|].
  rewrite Nat.Div0.mod_same. cbn [Nat.eqb negb]. rewrite Nat.eqb_refl. reflexivity.
Qed.

Lemma conv_same (n : dimension) (h w c kh kw cout stride : nat) :
  0 < stride -> 0 < c ->
  conv [n; Some h; Some w; Some c] (weight [kh; kw; c; cout]) stride SAME =
    Built [n; Some ((h + (stride - 1)) / stride); Some ((w + (stride - 1)) / stride);
           Some cout].
Proof.
  intros Hs Hc. unfold conv, weight, tf.nn.conv2d, tf.windowed_output.
  cbn [map]. rewrite (conv_depth_equal c _ Hc). cbn [built_bind].
  destruct (Nat.eqb_spec stride 0) as [H0|_]; [lia|]. reflexivity.
Qed.

Lemma conv_same_stride1 (n : dimension) (h w c kh kw cout : nat) :
  0 < c ->
  conv [n; Some h; Some w; Some c] (weight [kh; kw; c; cout]) 1 SAME =
    Built [n; Some h; Some w; Some cout].
Proof.
  intros Hc. rewrite conv_same by lia.
  change (1 - 1) with 0. rewrite !Nat.add_0_r, !Nat.div_1_r. reflexivity.
Qed.

Lemma conv_depth_no_multiple (n h w : dimension) (c cin kh kw cout stride : nat)
    (p : padding) :
  c mod cin <> 0 ->
  conv [n; h; w; Some c] (weight [kh; kw; cin; cout]) stride p = Failed GraphValueError.
Proof.
  intros Hc. unfold conv, weight, tf.nn.conv2d, tf.nn.conv_depth. cbn [map].
  destruct (cin =? 0); [reflexivity|].
  destruct (Nat.eqb_spec (c mod cin) 0) as [E|_]; [contradiction|]. reflexivity.
Qed.

Lemma max_pool_3_2 (n c : dimension) (a b : nat) :
  max_pool [n; Some a; Some b; c] 3 2 VALID =
    if (a <? 3) || (b <? 3) then Failed GraphValueError
    else Built [n; Some (after_pool a); Some (after_pool b); c].
Proof.
  unfold max_pool, tf.nn.max_pool, tf.windowed_output, after_pool.
  change (2 =? 0) with false. cbn iota.
  destruct (a <? 3); [reflexivity|]. cbn [built_bind orb].
  destruct (b <? 3); reflexivity.
Qed.

Lemma reshape_rows_flatten (n : dimension) (a b c : nat) :
  a * b * c <> 0 ->
  tf.reshape_rows [n; Some a; Some b; Some c] (a * b * c) = Built [n; Some (a * b * c)].
Proof.
  intros Hd. unfold tf.reshape_rows. destruct n as [m|]; cbn [tf.num_elements option_map].
  - replace (m * (a * (b * (c * 1)))) with (m * (a * b * c)) by lia.
    destruct (Nat.eqb_spec (a * b * c) 0) as [E|_]; [contradiction|].
    rewrite Nat.Div0.mod_mul, Nat.eqb_refl, Nat.div_mul by exact Hd. reflexivity.
  - reflexivity.
Qed.

Lemma matmul_weight (n : dimension) (k m : nat) :
  tf.matmul [n; Some k] (weight [k; m]) = Built [n; Some m].
Proof.
  unfold tf.matmul, weight, tf.merge_dimension. cbn [map].
  rewrite Nat.eqb_refl. reflexivity.
Qed.

Lemma after_conv1_bounds (d : nat) :
  (57 <= d -> 15 <= after_conv1 d) /\ (d < 57 -> after_conv1 d < 15).
Proof.
  unfold after_conv1. split; intros H.
  - apply Nat.div_le_lower_bound; lia.
  - apply Nat.Div0.div_lt_upper_bound. lia.
Qed.

Lemma after_pool_bounds (d k : nat) :
  (2 * k + 1 <= d -> k <= after_pool d) /\
  (2 <= k -> d < 2 * k + 1 -> after_pool d < k).
Proof.
  unfold after_pool. split.
  - intros H. apply Nat.div_le_lower_bound; lia.
  - intros Hk H. apply Nat.Div0.div_lt_upper_bound. lia.
Qed.

(** ** The layers stacked *)

Lemma pool_test_false (a b : nat) :
  (a <? 3) || (b <? 3) = false -> 3 <= a /\ 3 <= b.
Proof.
  intros H. apply orb_false_iff in H as [Ha Hb].
  apply Nat.ltb_ge in Ha. apply Nat.ltb_ge in Hb. split; assumption.
Qed.

Lemma pool_test_true (a b : nat) :
  (a <? 3) || (b <? 3) = true -> a < 3 \/ b < 3.
Proof.
  intros H. apply orb_true_iff in H as [H|H]; apply Nat.ltb_lt in H; [left|right]; exact H.
Qed.

Lemma size_test_false (h w : nat) :
  h < 57 \/ w < 57 -> (57 <=? h) && (57 <=? w) = false.
Proof.
  intros [H|H]; apply andb_false_iff; [left|right]; apply Nat.leb_gt; exact H.
Qed.

Lemma size_test_true (h w : nat) :
  57 <= h -> 57 <= w -> (57 <=? h) && (57 <=? w) = true.
Proof.
  intros Hh Hw. apply andb_true_iff. split; apply Nat.leb_le; assumption.
Qed.

(** From a small extent after some layer back to a small input. *)
Lemma small_after_conv1 (d : nat) : after_conv1 d < 3 -> d < 57.
Proof.
  intros H. destruct (Nat.lt_ge_cases d 57) as [Hlt|Hge]; [exact Hlt|].
  apply after_conv1_bounds in Hge. lia.
Qed.

Lemma small_after_pool1 (d : nat) : after_pool (after_conv1 d) < 3 -> d < 57.
Proof.
  intros H. destruct (Nat.lt_ge_cases d 57) as [Hlt|Hge]; [exact Hlt|].
  apply after_conv1_bounds in Hge.
  pose proof (proj1 (after_pool_bounds (after_conv1 d) 7) ltac:(lia)). lia.
Qed.

Lemma small_after_pool2 (d : nat) :
  after_pool (after_pool (after_conv1 d)) < 3 -> d < 57.
Proof.
  intros H. destruct (Nat.lt_ge_cases d 57) as [Hlt|Hge]; [exact Hlt|].
  apply after_conv1_bounds in Hge.
  pose proof (proj1 (after_pool_bounds (after_conv1 d) 7) ltac:(lia)) as H7.
  pose proof (proj1 (after_pool_bounds (after_pool (after_conv1 d)) 3) ltac:(lia)). lia.
Qed.

Lemma large_after_pool2 (d : nat) :
  3 <= after_pool (after_pool (after_conv1 d)) -> 57 <= d /\ 1 <= pooled d.
Proof.
  intros H3. split.
  - destruct (Nat.lt_ge_cases d 57) as [Hlt|Hge]; [|exact Hge].
    apply after_conv1_bounds in Hlt.
    pose proof (proj2 (after_pool_bounds (after_conv1 d) 7) ltac:(lia) ltac:(lia)) as H7.
    pose proof (proj2 (after_pool_bounds (after_pool (after_conv1 d)) 3)
                  ltac:(lia) ltac:(lia)). lia.
  - unfold pooled. apply after_pool_bounds. lia.
Qed.

Lemma build_network_shapes (n : dimension) (h w : nat) :
  build_network [n; Some h; Some w; Some 3] =
    if (57 <=? h) && (57 <=? w)
    then Built
           (mk_network
              [n; Some (after_conv1 h); Some (after_conv1 w); Some 96]
              [n; Some (after_pool (after_conv1 h)); Some (after_pool (after_conv1 w)); Some 96]
              [n; Some (after_pool (after_conv1 h)); Some (after_pool (after_conv1 w)); Some 96]
              [n; Some (after_pool (after_conv1 h)); Some (after_pool (after_conv1 w)); Some 256]
              [n; Some (after_pool (after_pool (after_conv1 h)));
                  Some (after_pool (after_pool (after_conv1 w))); Some 256]
              [n; Some (after_pool (after_pool (after_conv1 h)));
                  Some (after_pool (after_pool (after_conv1 w))); Some 256]
              [n; Some (after_pool (after_pool (after_conv1 h)));
                  Some (after_pool (after_pool (after_conv1 w))); Some 384]
              [n; Some (after_pool (after_pool (after_conv1 h)));
                  Some (after_pool (after_pool (after_conv1 w))); Some 384]
              [n; Some (after_pool (after_pool (after_conv1 h)));
                  Some (after_pool (after_pool (after_conv1 w))); Some 256]
              [n; Some (pooled h); Some (pooled w); Some 256]
              (pooled h * pooled w * 256)
              [n; Some (pooled h * pooled w * 256)]
              [n; Some 4096] [n; Some 4096] [n; Some 200])
    else Failed GraphValueError.
Proof.
  unfold build_network. cbv zeta.
  rewrite conv_same by lia. change (4 - 1) with 3.
  fold (after_conv1 h). fold (after_conv1 w). cbn [built_bind].
  rewrite add_bias4. cbn [built_bind]. unfold relu, tf.nn.relu, tf.nn.dropout.
  rewrite max_pool_3_2.
  destruct ((after_conv1 h <? 3) || (after_conv1 w <? 3)) eqn:T1.
  { cbn [built_bind]. rewrite size_test_false; [reflexivity|].
    apply pool_test_true in T1 as [H|H]; [left|right]; apply small_after_conv1; exact H. }
  cbn [built_bind lrn tf.nn.local_response_normalization].
  rewrite conv_same_stride1 by lia. cbn [built_bind]. rewrite add_bias4. cbn [built_bind].
  rewrite max_pool_3_2.
  destruct ((after_pool (after_conv1 h) <? 3) || (after_pool (after_conv1 w) <? 3)) eqn:T2.
  { cbn [built_bind]. rewrite size_test_false; [reflexivity|].
    apply pool_test_true in T2 as [H|H]; [left|right]; apply small_after_pool1; exact H. }
  cbn [built_bind lrn tf.nn.local_response_normalization].
  rewrite conv_same_stride1 by lia. cbn [built_bind]. rewrite add_bias4. cbn [built_bind].
  rewrite conv_same_stride1 by lia. cbn [built_bind]. rewrite add_bias4. cbn [built_bind].
  rewrite conv_same_stride1 by lia. cbn [built_bind]. rewrite add_bias4. cbn [built_bind].
  rewrite max_pool_3_2.
  destruct ((after_pool (after_pool (after_conv1 h)) <? 3)
            || (after_pool (after_pool (after_conv1 w)) <? 3)) eqn:T3.
  { cbn [built_bind]. rewrite size_test_false; [reflexivity|].
    apply pool_test_true in T3 as [H|H]; [left|right]; apply small_after_pool2; exact H. }
  apply pool_test_false in T3 as [H3h H3w].
  destruct (large_after_pool2 h H3h) as [Hh Hph].
  destruct (large_after_pool2 w H3w) as [Hw Hpw].
  rewrite (size_test_true h w Hh Hw).
  fold (pooled h). fold (pooled w).
  cbn [built_bind flattened_size].
  rewrite reshape_rows_flatten by nia. cbn [built_bind].
  rewrite matmul_weight. cbn [built_bind]. rewrite add_bias2. cbn [built_bind].
  rewrite matmul_weight. cbn [built_bind]. rewrite add_bias2. cbn [built_bind].
  rewrite matmul_weight. cbn [built_bind]. rewrite add_bias2. cbn [built_bind].
  reflexivity.
Qed.

Lemma build_network_placeholder :
  exists net,
    build_network x_placeholder = Built net /\
    conv1 net = [None; Some 56; Some 56; Some 96] /\
    pool1 net = [None; Some 27; Some 27; Some 96] /\
    pool2 net = [None; Some 13; Some 13; Some 256] /\
    conv5 net = [None; Some 13; Some 13; Some 256] /\
    pool5 net = [None; Some 6; Some 6; Some 256] /\
    flattened_dim net = 9216 /\
    pred net = [None; Some 200].
Proof.
  unfold x_placeholder. rewrite build_network_shapes.
  change ((57 <=? 224) && (57 <=? 224)) with true. cbn iota.
  eexists. split; [reflexivity|]. cbn [conv1 pool1 pool2 conv5 pool5 flattened_dim pred].
  assert (H1 : after_conv1 224 = 56) by reflexivity.
  assert (H2 : after_pool 56 = 27) by reflexivity.
  assert (H3 : after_pool 27 = 13) by reflexivity.
  assert (H4 : after_pool 13 = 6) by reflexivity.
  unfold pooled. rewrite H1, H2, H3, H4. repeat split.
Qed.

(** The graph of cells 43 to 59 can be built on an input of 3 channels
    whose height and width are at least 57, and on no smaller one: the
    three pooling layers need it.  When it is built, the logits [pred]
    have 200 columns whatever the image size and the batch dimension, and
    the flattened layer has [pooled h * pooled w * 256] columns.  On an
    input whose number of channels is not a multiple of 3 the first
    convolution is rejected.  For the placeholder of cell 41 (224 by 224 images, batch
    size open) the convolutional part ends in a 6 by 6 by 256 tensor and
    [flattened_dim] is 9216. *)
Theorem network_builds :
  (forall (n : dimension) (h w : nat),
     57 <= h -> 57 <= w ->
     exists net,
       build_network [n; Some h; Some w; Some 3] = Built net /\
       pool5 net = [n; Some (pooled h); Some (pooled w); Some 256] /\
       flattened_dim net = pooled h * pooled w * 256 /\
       flattened net = [n; Some (flattened_dim net)] /\
       pred net = [n; Some 200]) /\
  (forall (n : dimension) (h w : nat),
     h < 57 \/ w < 57 ->
     build_network [n; Some h; Some w; Some 3] = Failed GraphValueError) /\
  (forall (n h w : dimension) (c : nat),
     c mod 3 <> 0 -> build_network [n; h; w; Some c] = Failed GraphValueError) /\
  (exists net,
     build_network x_placeholder = Built net /\
     conv1 net = [None; Some 56; Some 56; Some 96] /\
     pool1 net = [None; Some 27; Some 27; Some 96] /\
     pool2 net = [None; Some 13; Some 13; Some 256] /\
     conv5 net = [None; Some 13; Some 13; Some 256] /\
     pool5 net = [None; Some 6; Some 6; Some 256] /\
     flattened_dim net = 9216 /\
     pred net = [None; Some 200]).
Proof.
  split; [|split; [|split]].
  - intros n h w Hh Hw. rewrite build_network_shapes, (size_test_true h w Hh Hw).
    eexists. split; [reflexivity|]. repeat split.
  - intros n h w Hs. rewrite build_network_shapes, (size_test_false h w Hs). reflexivity.
  - intros n h w c Hc. unfold build_network. cbv zeta.
    rewrite conv_depth_no_multiple by exact Hc. reflexivity.
  - exact build_network_placeholder.
Qed.

Lemma network_builds_witness :
  57 <= 64 /\
  exists net,
    build_network [Some 128; Some 64; Some 64; Some 3] = Built net /\
    pred net = [Some 128; Some 200].
Proof.
  split; [lia|].
  destruct (proj1 network_builds (Some 128) 64 64 ltac:(lia) ltac:(lia))
    as (net & Hnet & _ & _ & _ & Hpred).
  exists net. split; [exact Hnet|exact Hpred].
Defined.

(** ** The loss and the labels *)

Lemma softmax_open_labels (n : dimension) (c : nat) :
  tf.nn.softmax_cross_entropy_with_logits y_placeholder [n; Some c] = Built [n].
Proof.
  unfold tf.nn.softmax_cross_entropy_with_logits, tf.nn.flatten_outer_dims, y_placeholder.
  cbn [rev app tf.nn.known_product option_map].
  destruct n as [m|]; cbn [tf.nn.known_product option_map built_bind];
    unfold tf.add; cbn [rev app tf.broadcast_reversed tf.broadcast_dimension built_bind].
  - destruct (1 <? c); cbn [built_bind]; destruct (1 <? m * 1); reflexivity.
  - reflexivity.
Qed.

(** The loss and the accuracy of cell 61 are built on logits of any
    width: the width of [pred] is not compared with the 200 columns of the
    label placeholder when the graph is built, because [y] leaves the
    batch size open and its flattened form has no static shape.  On
    logits [n; c] the shapes are: [cross_entropy] and [accuracy] scalars,
    [correct_prediction] one entry per row of the batch.  That the widths
    do agree is a fact about the notebook: the logits of its network and
    the vectors of [one_hot] both have 200 columns. *)
Theorem training_graph_width :
  (forall (n : dimension) (c : nat),
     build_training y_placeholder [n; Some c] =
       Built ([], [match n with
                   | Some m => if 1 <? m then Some m else None
                   | None => None
                   end], [])) /\
  (exists net,
     build_network x_placeholder = Built net /\
     pred net = [None; Some 200] /\
     build_training y_placeholder (pred net) = Built ([], [None], [])) /\
  (forall i vec, one_hot i = Ok vec -> map Some (shape vec) = tl y_placeholder).
Proof.
  assert (Hany : forall (n : dimension) (c : nat),
            build_training y_placeholder [n; Some c] =
              Built ([], [match n with
                          | Some m => if 1 <? m then Some m else None
                          | None => None
                          end], [])).
  { intros n c. unfold build_training.
    rewrite softmax_open_labels. cbn [built_bind].
    unfold y_placeholder, tf.argmax_axis1, tf.equal, tf.add, tf.reduce_mean.
    destruct n as [m|];
      cbn [built_bind rev app tf.broadcast_reversed tf.broadcast_dimension];
      [destruct (1 <? m)|]; reflexivity. }
  split; [exact Hany|split].
  - destruct build_network_placeholder as (net & Hnet & _ & _ & _ & _ & _ & _ & Hpred).
    exists net. split; [exact Hnet|]. split; [exact Hpred|].
    rewrite Hpred. apply (Hany None 200).
  - intros i vec Hvec. unfold one_hot, np.setitem in Hvec. cbn [shape np.zeros] in Hvec.
    destruct (norm_index i 200) as [k|e]; cbn [result_bind] in Hvec; [|discriminate Hvec].
    injection Hvec as <-. reflexivity.
Qed.

Lemma training_graph_width_witness :
  build_training y_placeholder [Some 128; Some 10] = Built ([], [Some 128], []) /\
  build_training y_placeholder [None; Some 200] = Built ([], [None], []).
Proof.
  split.
  - exact (proj1 training_graph_width (Some 128) 10).
  - exact (proj1 training_graph_width None 200).
Defined.

(** ** Feeding batches to the placeholders *)

Lemma compatible_known (s t : list nat) :
  tf.is_compatible_with (map Some s) (map Some t) = shape_eqb s t.
Proof.
  revert t. induction s as [|a s IH]; intros [|b t]; cbn [map tf.is_compatible_with shape_eqb];
    try reflexivity.
  rewrite IH. reflexivity.
Qed.

Lemma forallb_same_shape {A} (s : list nat) (value : list (ndarray A)) :
  forallb (fun b => shape_eqb s (shape b)) value = true <->
  Forall (fun a => shape a = s) value.
Proof.
  rewrite forallb_forall, Forall_forall. split; intros H a Ha.
  - symmetry. apply shape_eqb_eq. exact (H a Ha).
  - apply shape_eqb_eq. symmetry. exact (H a Ha).
Qed.

Lemma feed_known {A} (s : list nat) (value : list (ndarray A)) :
  s <> [] ->
  feed (None :: map Some s) value =
    match value with
    | [] => Err ValueError
    | a :: rest =>
        if forallb (fun b => shape_eqb s (shape b)) (a :: rest) then Ok tt else Err ValueError
    end.
Proof.
  intros Hs. unfold feed, stacked_shape. destruct value as [|a rest].
  - cbn [result_bind map tf.is_compatible_with tf.dimension_compatible andb].
    destruct s as [|d s]; [contradiction|reflexivity].
  - cbn [forallb]. destruct (shape_eqb s (shape a)) eqn:Ea.
    + apply shape_eqb_eq in Ea. subst s. cbn [andb].
      destruct (forallb (fun b => shape_eqb (shape a) (shape b)) rest);
        cbn [result_bind]; [|reflexivity].
      change (map Some (List.length (a :: rest) :: shape a))
        with (Some (List.length (a :: rest)) :: map Some (shape a)).
      cbn [tf.is_compatible_with tf.dimension_compatible andb].
      rewrite compatible_known.
      replace (shape_eqb (shape a) (shape a)) with true; [reflexivity|].
      symmetry. apply shape_eqb_eq. reflexivity.
    + cbn [andb].
      destruct (forallb (fun b => shape_eqb (shape a) (shape b)) rest);
        cbn [result_bind]; [|reflexivity].
      change (map Some (List.length (a :: rest) :: shape a))
        with (Some (List.length (a :: rest)) :: map Some (shape a)).
      cbn [tf.is_compatible_with tf.dimension_compatible andb].
      rewrite compatible_known, Ea. reflexivity.
Qed.

Lemma feed_known_iff {A} (s : list nat) (value : list (ndarray A)) :
  s <> [] ->
  (feed (None :: map Some s) value = Ok tt <->
   value <> [] /\ Forall (fun a => shape a = s) value) /\
  (feed (None :: map Some s) value = Ok tt \/
   feed (None :: map Some s) value = Err ValueError).
Proof.
  intros Hs. rewrite (feed_known s value Hs). destruct value as [|a rest].
  - split; [|right; reflexivity]. split; [discriminate|]. intros [H _]. contradiction.
  - destruct (forallb (fun b => shape_eqb s (shape b)) (a :: rest)) eqn:E.
    + split; [|left; reflexivity]. split; [|reflexivity]. intros _.
      split; [discriminate|]. apply forallb_same_shape. exact E.
    + split; [|right; reflexivity]. split; [discriminate|]. intros [_ H].
      apply forallb_same_shape in H. congruence.
Qed.

(** What the two placeholders of cell 41 accept in a [feed_dict], as in
    cell 62: a list of arrays is accepted by [x] exactly when it is not
    empty and every array has shape (224, 224, 3), and by [y] exactly when
    it is not empty and every array has 200 entries; any other list makes
    the run raise [ValueError].  So an image that did not go through
    [preprocess], such as a 64 by 64 one, cannot be fed. *)
Theorem feed_placeholders :
  (forall value : list (ndarray Z),
     (feed x_placeholder value = Ok tt <->
      value <> [] /\ Forall (fun a => shape a = [224; 224; 3]) value) /\
     (feed x_placeholder value = Ok tt \/ feed x_placeholder value = Err ValueError)) /\
  (forall value : list (ndarray float),
     (feed y_placeholder value = Ok tt <->
      value <> [] /\ Forall (fun l => shape l = [200]) value) /\
     (feed y_placeholder value = Ok tt \/ feed y_placeholder value = Err ValueError)) /\
  (forall (im : image) (rest : list (ndarray Z)),
     shape (array_of_image (Image.convert_RGB im)) = [64; 64; 3] ->
     feed x_placeholder (array_of_image (Image.convert_RGB im) :: rest) = Err ValueError).
Proof.
  split; [|split].
  - intros value. apply (feed_known_iff [224; 224; 3] value). discriminate.
  - intros value. apply (feed_known_iff [200] value). discriminate.
  - intros im rest Him.
    change x_placeholder with (None :: map Some [224; 224; 3]).
    rewrite feed_known by discriminate. cbn [forallb]. rewrite Him. reflexivity.
Qed.

Lemma feed_placeholders_witness :
  feed x_placeholder [array_of_image (Image.convert_RGB grey64)] = Err ValueError /\
  feed y_placeholder [unit_vector 1] = Ok tt.
Proof.
  split.
  - exact (proj2 (proj2 feed_placeholders) grey64 [] eq_refl).
  - apply (proj1 (proj2 feed_placeholders) [unit_vector 1]).
    split; [discriminate|]. constructor; [reflexivity|constructor].
Defined.

Section Feed.

Context {RS : RandomSource} {RK : Resampler}.

Lemma read_batch_Ret_shapes (fuel : nat) (batch_size : Z) (images_source : string)
    (wnid_labels : list string) (imgs : list (ndarray Z))
    (lbls : list (ndarray float)) (w w' : world) :
  read_batch fuel batch_size images_source wnid_labels w = Ret (imgs, lbls) w' ->
  (1 <= batch_size)%Z /\
  List.length imgs = Z.to_nat batch_size /\
  List.length lbls = Z.to_nat batch_size /\
  Forall (fun a => shape a = [224; 224; 3]) imgs /\
  Forall (fun l => shape l = [200]) lbls.
Proof.
  intros Hret.
  destruct (read_batch_Ret_inv _ _ _ _ _ _ _ _ Hret)
    as (ks & Hl & Hli & Hlk & _ & Hn & _).
  split; [exact Hn|]. split; [exact Hli|].
  split; [rewrite Hl, length_map; exact Hlk|].
  unfold read_batch in Hret.
  apply bind_Ret_inv in Hret as ([bi bl] & w1 & Hloop & Hret).
  apply bind_Ret_inv in Hret as (s1 & w2 & _ & Hret).
  apply bind_Ret_inv in Hret as (s2 & w3 & _ & Hret).
  injection Hret as <- <- _.
  apply for_each_steps_samples in Hloop as (imgs & lbls & Hacc & Hall & _ & _).
  cbn [fst snd app] in Hacc. injection Hacc as -> ->.
  clear Hl Hli Hlk. induction Hall as [|img lbl imgs lbls Hs Hall IH].
  - split; constructor.
  - destruct IH as [IHi IHl].
    destruct (sample_of_shapes _ _ _ _ _ Hs) as [[Hi _] [Hl _]].
    split; constructor; assumption.
Qed.

End Feed.

(** Every batch that [read_batch] returns can be fed to the placeholders
    of the network as the training loop of cell 62 does: the images are
    accepted by [x] and the labels by [y].  Stacked, the images form an
    array of shape (batch_size, 224, 224, 3) and the labels one of shape
    (batch_size, 200), and on an input of that shape the network of cells
    43 to 59 gives logits of the shape of the labels. *)
Theorem read_batch_feeds_network (RS : RandomSource) (RK : Resampler) (fuel : nat)
    (batch_size : Z) (images_source : string) (wnid_labels : list string)
    (imgs : list (ndarray Z)) (lbls : list (ndarray float)) (w w' : world) :
  read_batch fuel batch_size images_source wnid_labels w = Ret (imgs, lbls) w' ->
  feed x_placeholder imgs = Ok tt /\
  feed y_placeholder lbls = Ok tt /\
  stacked_shape imgs = Ok [Z.to_nat batch_size; 224; 224; 3] /\
  stacked_shape lbls = Ok [Z.to_nat batch_size; 200] /\
  exists net,
    build_network (map Some [Z.to_nat batch_size; 224; 224; 3]) = Built net /\
    pred net = map Some [Z.to_nat batch_size; 200].
Proof.
  intros Hret.
  destruct (read_batch_Ret_shapes _ _ _ _ _ _ _ _ Hret) as (Hn & Hli & Hll & Hsi & Hsl).
  assert (Hi : imgs <> []).
  { intros ->. cbn [List.length] in Hli. lia. }
  assert (Hl : lbls <> []).
  { intros ->. cbn [List.length] in Hll. lia. }
  split.
  { apply (proj1 (feed_known_iff [224; 224; 3] imgs ltac:(discriminate))).
    split; assumption. }
  split.
  { apply (proj1 (feed_known_iff [200] lbls ltac:(discriminate))).
    split; assumption. }
  split.
  { destruct imgs as [|a rest]; [contradiction|].
    inversion Hsi as [|? ? Ha Hrest]; subst. unfold stacked_shape.
    replace (forallb (fun b => shape_eqb (shape a) (shape b)) rest) with true.
    - rewrite Ha, Hli. reflexivity.
    - symmetry. apply forallb_same_shape.
      eapply Forall_impl; [|exact Hrest]. cbn beta. intros b Hb. congruence. }
  split.
  { destruct lbls as [|a rest]; [contradiction|].
    inversion Hsl as [|? ? Ha Hrest]; subst. unfold stacked_shape.
    replace (forallb (fun b => shape_eqb (shape a) (shape b)) rest) with true.
    - rewrite Ha, Hll. reflexivity.
    - symmetry. apply forallb_same_shape.
      eapply Forall_impl; [|exact Hrest]. cbn beta. intros b Hb. congruence. }
  cbn [map]. rewrite build_network_shapes.
  change ((57 <=? 224) && (57 <=? 224)) with true. cbn iota.
  eexists. split; reflexivity.
Qed.

Lemma read_batch_feeds_network_witness :
  exists imgs lbls w',
    @read_batch scripted nearest_resampler 1 1 "root" ["a"; "b"; "c"]
        (boot three_classes [1]) = Ret (imgs, lbls) w' /\
    feed x_placeholder imgs = Ok tt /\
    feed y_placeholder lbls = Ok tt.
Proof.
  eexists _, _, _. split; [exact (sample_batch_run [])|].
  pose proof (read_batch_feeds_network scripted nearest_resampler 1 1 "root"
                ["a"; "b"; "c"] _ _ (boot three_classes [1]) _ (sample_batch_run []))
    as (Hx & Hy & _).
  split; [exact Hx|exact Hy].
Defined.

(** ** A well-formed data set *)

Section WellFormed.

Context {RS : RandomSource} {RK : Resampler}.

Variables (fuel : nat) (images_source : string) (wnid_labels : list string).

Lemma read_batch_step_well_formed (bi : list (ndarray Z)) (bl : list (ndarray float))
    (w : world) :
  200 <= List.length wnid_labels ->
  forallb (well_formed_class (fs w) images_source) (firstn 200 wnid_labels) = true ->
  exists img lbl w1,
    read_batch_step (S fuel) images_source wnid_labels (bi, bl) w
      = Ret (bi ++ [img], bl ++ [lbl]) w1 /\
    fs w1 = fs w /\
    List.length (log w1) = 3 + List.length (log w).
Proof.
  intros Hlen Hwf.
  pose proof (drawn_lt w 200 ltac:(lia)) as Hk.
  destruct (nth_error wnid_labels (drawn w 200)) as [wnid|] eqn:Hwnid.
  2:{ apply nth_error_None in Hwnid. lia. }
  assert (Hin : In wnid (firstn 200 wnid_labels)).
  { apply (nth_error_In _ (drawn w 200)). rewrite nth_error_firstn.
    destruct (Nat.ltb_spec (drawn w 200) 200) as [_|Hge]; [exact Hwnid|lia]. }
  rewrite forallb_forall in Hwf. specialize (Hwf wnid Hin).
  unfold well_formed_class in Hwf. cbv zeta in Hwf.
  destruct (resolve (fs w) (os.path.join images_source (os.path.join wnid "images")))
    as [[c|[|] entries]|] eqn:Hdir; try discriminate Hwf.
  apply andb_true_iff in Hwf as [Hne Hall].
  assert (Hentries : entries <> []).
  { intros ->. discriminate Hne. }
  rewrite forallb_forall in Hall.
  set (folder := os.path.join images_source (os.path.join wnid "images")) in *.
  set (w1 := logged (EvExists folder) (after_draw w 200)).
  assert (Hconf : conforming (fs w) folder (attempt_name (gen w1) (map fst entries) 0) = true).
  { apply Hall. apply attempt_name_In. destruct entries; [contradiction|discriminate]. }
  unfold conforming in Hconf.
  destruct (resolve (fs w) (os.path.join folder (attempt_name (gen w1) (map fst entries) 0)))
    as [[[im|]|r sub]|] eqn:Him; try discriminate Hconf.
  apply shape_eqb_eq in Hconf.
  exists (preprocessed (Image.convert_RGB im)), (unit_vector (drawn w 200)),
    (after_attempt w1 folder (map fst entries)).
  split; [|split; reflexivity].
  exact (read_batch_step_success fuel images_source wnid_labels bi bl wnid entries im w
           Hwnid Hdir Hentries Him Hconf).
Qed.

Lemma for_each_steps_well_formed (root : node) (l : list Z) :
  200 <= List.length wnid_labels ->
  forallb (well_formed_class root images_source) (firstn 200 wnid_labels) = true ->
  forall (acc : batch) (w : world),
    fs w = root ->
    exists acc' w',
      for_each l (fun _ => read_batch_step (S fuel) images_source wnid_labels) acc w
        = Ret acc' w' /\
      fs w' = root /\
      List.length (log w') = 3 * List.length l + List.length (log w).
Proof.
  intros Hlen Hwf. induction l as [|x t IH]; intros acc w Hfs.
  - exists acc, w. repeat split. exact Hfs.
  - destruct acc as [bi bl]. rewrite <- Hfs in Hwf.
    destruct (read_batch_step_well_formed bi bl w Hlen Hwf)
      as (img & lbl & w1 & Hstep & Hfs1 & Hlog1).
    rewrite Hfs in Hwf.
    destruct (IH (bi ++ [img], bl ++ [lbl]) w1 ltac:(congruence))
      as (acc' & w' & Hrest & Hfs' & Hlog').
    exists acc', w'. cbn [for_each].
    rewrite (bind_Ret _ _ _ _ _ Hstep). split; [exact Hrest|].
    split; [exact Hfs'|]. cbn [List.length]. lia.
Qed.

End WellFormed.

(** On a well-formed data set the sampler cannot fail.  Let [wnid_labels]
    have at least 200 entries, and let each of the first 200 name a class
    whose [images] folder is a readable, non-empty directory of 64 by 64
    images.  Then for every batch size of at least 1 [read_batch] returns
    a batch of that size, whatever the generator draws; one pass through
    each of the two [while] loops suffices for every sample, so the call
    makes exactly three file-system calls per sample (one existence test,
    one listing, one open), and the tree is left as it was. *)
Theorem read_batch_well_formed (RS : RandomSource) (RK : Resampler) (fuel : nat)
    (batch_size : Z) (images_source : string) (wnid_labels : list string) (w : world) :
  (1 <= batch_size)%Z ->
  200 <= List.length wnid_labels ->
  forallb (well_formed_class (fs w) images_source) (firstn 200 wnid_labels) = true ->
  exists imgs lbls w',
    read_batch (S fuel) batch_size images_source wnid_labels w = Ret (imgs, lbls) w' /\
    List.length imgs = Z.to_nat batch_size /\
    List.length lbls = Z.to_nat batch_size /\
    fs w' = fs w /\
    List.length (log w') = 3 * Z.to_nat batch_size + List.length (log w).
Proof.
  intros Hn Hlen Hwf.
  destruct (for_each_steps_well_formed fuel images_source wnid_labels (fs w)
              (range batch_size) Hlen Hwf ([], []) w eq_refl)
    as ([bi bl] & w' & Hloop & Hfs & Hlog).
  rewrite length_range in Hlog.
  destruct (for_each_steps_samples _ _ _ _ _ _ _ _ Hloop)
    as (imgs & lbls & Hacc & Hall & Hli & _).
  cbn [fst snd app] in Hacc. injection Hacc as -> ->.
  rewrite length_range in Hli.
  assert (Hll : List.length lbls = Z.to_nat batch_size).
  { rewrite <- (Forall2_length Hall). exact Hli. }
  assert (Hshapes :
    Forall (fun a => shape a = [224; 224; 3]) imgs /\
    Forall (fun l => shape l = [200]) lbls).
  { clear Hloop Hli Hll. induction Hall as [|img lbl imgs lbls Hs Hall IH];
      [split; constructor|].
    destruct IH as [IHi IHl].
    destruct (sample_of_shapes _ _ _ _ _ Hs) as [[Hi _] [Hl _]].
    split; constructor; assumption. }
  destruct Hshapes as [Hsi Hsl].
  destruct imgs as [|i0 imgs]; [cbn [List.length] in Hli; lia|].
  destruct lbls as [|l0 lbls]; [cbn [List.length] in Hll; lia|].
  inversion Hsi as [|? ? Hi0 Hirest]; subst.
  inversion Hsl as [|? ? Hl0 Hlrest]; subst.
  destruct (vstack_same_shape i0 imgs) as [r1 Hr1].
  { eapply Forall_impl; [|exact Hirest]. cbn beta. intros a Ha. congruence. }
  destruct (vstack_same_shape l0 lbls) as [r2 Hr2].
  { eapply Forall_impl; [|exact Hlrest]. cbn beta. intros a Ha. congruence. }
  exists (i0 :: imgs), (l0 :: lbls), w'.
  split; [|repeat split; assumption].
  unfold read_batch. rewrite (bind_Ret _ _ _ _ _ Hloop).
  unfold bind. rewrite Hr1. cbn [lift ret]. rewrite Hr2. reflexivity.
Qed.

Lemma read_batch_well_formed_witness :
  exists imgs lbls w',
    @read_batch scripted nearest_resampler 1 2 "root" (repeat "b"%string 200)
        (boot three_classes [7; 0; 150; 0]) = Ret (imgs, lbls) w' /\
    List.length imgs = 2 /\
    List.length (log w') = 6.
Proof.
  destruct (read_batch_well_formed scripted nearest_resampler 0 2 "root"
              (repeat "b"%string 200) (boot three_classes [7; 0; 150; 0])
              ltac:(lia) (Nat.eq_le_incl _ _ (eq_sym (repeat_length "b"%string 200)))
              eq_refl)
    as (imgs & lbls & w' & Hrun & Hli & _ & _ & Hlog).
  exists imgs, lbls, w'. split; [exact Hrun|]. split; [exact Hli|exact Hlog].
Defined.

(** ** The shape test of [read_image] *)

Lemma shape_converted (im : image) :
  shape (array_of_image (Image.convert_RGB im)) = [snd (image_size im); fst (image_size im); 3].
Proof. destruct im as [g|c|c]; reflexivity. Qed.

(** The test [np.array(img).shape == (64, 64, 3)] of [read_image] comes
    after [convert('RGB')], so it looks at the size of the file only: a
    file of 64 by 64 pixels is taken and preprocessed in that pass whether
    it is greyscale, RGB or RGBA, and a file of any other size is skipped
    and the loop goes on.  Greyscale images are therefore not ignored. *)
Theorem read_image_size_test (RS : RandomSource) (RK : Resampler) (fuel : nat)
    (folder : string) (entries : list (string * node)) (im : image) (w : world) :
  resolve (fs w) folder = Some (Dir true entries) ->
  entries <> [] ->
  resolve (fs w) (os.path.join folder (attempt_name (gen w) (map fst entries) 0))
    = Some (File (Some im)) ->
  (image_size im = (64, 64) ->
     read_image (S fuel) folder w =
       Ret (preprocessed (Image.convert_RGB im)) (after_attempt w folder (map fst entries))) /\
  (image_size im <> (64, 64) ->
     read_image (S fuel) folder w =
       read_image fuel folder (after_attempt w folder (map fst entries))) /\
  (conforming (fs w) folder (attempt_name (gen w) (map fst entries) 0) = true <->
     image_size im = (64, 64)).
Proof.
  intros Hdir Hne Him.
  pose proof (read_image_attempt fuel folder entries w Hdir Hne) as Hrun.
  cbv zeta in Hrun. rewrite Him in Hrun.
  assert (Htest : shape_eqb (shape (array_of_image (Image.convert_RGB im))) [64; 64; 3] = true
                  <-> image_size im = (64, 64)).
  { rewrite shape_eqb_eq, shape_converted. destruct (image_size im) as [wd ht].
    cbn [fst snd]. split; [intros [= -> ->]; reflexivity|intros [= -> ->]; reflexivity]. }
  split; [|split].
  - intros Hsize. apply Htest in Hsize. rewrite Hsize in Hrun. exact Hrun.
  - intros Hsize.
    destruct (shape_eqb (shape (array_of_image (Image.convert_RGB im))) [64; 64; 3]) eqn:E.
    + exfalso. apply Hsize, Htest. reflexivity.
    + exact Hrun.
  - rewrite (conforming_file _ _ _ _ Him). exact Htest.
Qed.

Lemma read_image_size_test_witness :
  @read_image scripted nearest_resampler 1 "root/g/images" (boot greyscale_class [0]) =
    Ret (@preprocessed nearest_resampler (Image.convert_RGB grey64_L))
        (@after_attempt scripted (boot greyscale_class [0]) "root/g/images" ["g_0.JPEG"]) /\
  @read_image scripted nearest_resampler 1 "root/d/images" (boot damaged [0]) =
    @read_image scripted nearest_resampler 0 "root/d/images"
      (@after_attempt scripted (boot damaged [0]) "root/d/images" ["d_0.JPEG"]).
Proof.
  split.
  - apply (proj1 (read_image_size_test scripted nearest_resampler 0 "root/g/images"
                    [("g_0.JPEG", File (Some grey64_L))] grey64_L (boot greyscale_class [0])
                    eq_refl ltac:(discriminate) eq_refl)).
    reflexivity.
  - apply (proj1 (proj2 (read_image_size_test scripted nearest_resampler 0 "root/d/images"
                    [("d_0.JPEG", File (Some thumb32))] thumb32 (boot damaged [0])
                    eq_refl ltac:(discriminate) eq_refl))).
    discriminate.
Defined.
